(** * URL-shortener microservice: the store handlers of [main.py] and the
      logging client of [logger.py], as a shallow embedding.

    The two Python modules are embedded as explicit state passing:
    - [logger.py] over a [logger] record holding the module globals
      ([auth_token_storage]) together with what the module does to the
      outside world (requests sent, console lines printed);
    - [main.py] over a [world] record holding [url_db], the logger and the
      position in the entropy stream consumed by [secrets.choice].

    The network, the entropy source and the wall clock are inputs: the
    replies of the two HTTP endpoints are streams indexed by the number of
    requests already sent (the reply of the log endpoint may depend on the
    event and token sent), the entropy source is a stream of draws, and
    each handler receives the value [datetime.now(timezone.utc)] returns in
    its body.  [config.py] is not part of the sources: its constants are
    the fields of [Config].

    Of the libraries, the model keeps what reaches the caller: the
    exceptions [requests.post] raises ([RequestException], which
    [logger.py] catches, and [UnicodeEncodeError] for a header that cannot
    be encoded, which it does not), the quoting [RedirectResponse] applies
    to the [Location] header, and the overflow checks of [datetime].  A
    handler is a sequential program; requests handled one after another
    are [Main.handle_all], and a schedule in which two creates overlap is
    [Main.overlapped_creates]. *)

From Stdlib Require Import ZArith Lia Ascii String.
From stdpp Require Import base option list strings gmap.

Set Warnings "-register-all".

Open Scope string_scope.
Open Scope Z_scope.

(** ** Python values and outcomes *)

(** The values [response.json()] can produce.  Numbers are kept integral:
    only their truthiness is ever inspected. *)
Inductive json : Type :=
  | JNull
  | JBool (b : bool)
  | JNum (z : Z)
  | JStr (s : string)
  | JArr (items : list json)
  | JObj (items : list (string * json)).

(** A Python [dict] with string keys, as its item list (one item per key). *)
Abbreviation pydict := (list (string * json)).

(** [d.get(k)]: the value under [k], or [None]. *)
Fixpoint dict_get (d : pydict) (k : string) : json :=
  match d with
  | [] => JNull
  | (k', v) :: d' => if String.eqb k' k then v else dict_get d' k
  end.

(** Python truthiness, as used by [if x:] and [if not x:]. *)
Definition truthy (v : json) : bool :=
  match v with
  | JNull => false
  | JBool b => b
  | JNum z => negb (z =? 0)
  | JStr s => negb (String.eqb s EmptyString)
  | JArr items => match items with [] => false | _ => true end
  | JObj items => match items with [] => false | _ => true end
  end.

(** Exceptions that can leave a function of the two modules.
    [requests.exceptions.RequestException] never does: both [except]
    clauses of [logger.py] catch it, so it only appears as the value
    [RequestException] of [http_outcome].  [UnicodeEncodeError] is what
    [requests.post] raises when a header it is given cannot be encoded;
    it is a [ValueError], not a [RequestException]. *)
Inductive exn : Type :=
  | HTTPException (status_code : Z) (detail : string)
  | AttributeError
  | OverflowError
  | UnicodeEncodeError.

(** Result of running a piece of Python: a value, a raised exception, or
    [Diverge] when the fuel given to a [while True] loop is exhausted. *)
Inductive outcome (A : Type) : Type :=
  | Ok (a : A)
  | Raise (e : exn)
  | Diverge.
Arguments Ok {A} a.
Arguments Raise {A} e.
Arguments Diverge {A}.

(** ** The [requests] library, as seen by [logger.py] *)

(** What [requests.exceptions.RequestException] instances the code can
    catch. *)
Inductive request_exception : Type :=
  | ConnectionError (msg : string)
  | ReadTimeout
  | HTTPError (status : Z)
  | JSONDecodeError.

(** A [requests.Response]: [json_body] is [None] when the body is not
    valid JSON, in which case [response.json()] raises
    [requests.exceptions.JSONDecodeError], a [RequestException]. *)
Record response : Type := Response {
  status_code : Z;
  text : string;
  json_body : option json
}.

(** Outcome of one [requests.post]. *)
Inductive http_outcome : Type :=
  | Replied (r : response)
  | RequestException (e : request_exception).

(** [response.raise_for_status()]: raises [HTTPError] for 4xx and 5xx. *)
Definition raise_for_status (r : response) : option request_exception :=
  if (400 <=? status_code r) && (status_code r <? 600)
  then Some (HTTPError (status_code r)) else None.

(** One structured log event, the JSON payload of a log submission,
    together with the bearer token it was sent with. *)
Record log_event : Type := LogEvent {
  ev_token : json;
  ev_stack : string;
  ev_level : string;
  ev_package : string;
  ev_message : string
}.

(** ** Configuration and environment *)

(** The constants of [config.py] read by the two modules. *)
Record Config : Type := {
  BASE_SHORT_URL : string;
  DEFAULT_VALIDITY_MINUTES : Z;
  SHORTCODE_LENGTH : nat;
  AUTH_ENDPOINT : string;
  LOG_ENDPOINT : string
}.

(** The outside world: the reply to the [i]-th POST to the auth endpoint,
    the reply to the [i]-th POST to the log endpoint, which may depend on
    the event and the token submitted, and the [i]-th draw of the system
    entropy source.

    [header_encodable token] tells whether the header
    [f"Bearer {token}"] can be put on the wire: [http.client] encodes
    header values as latin-1 when it puts the request together, and
    [requests.post] raises [UnicodeEncodeError] for a value outside it.
    The text of a token that is not a string is Python's [str] of it,
    which the model does not compute: the test is a function of the token,
    left to the environment. *)
Record Env : Type := {
  auth_net : nat -> http_outcome;
  log_net : nat -> log_event -> http_outcome;
  header_encodable : json -> bool;
  entropy : nat -> nat
}.

(** ** logger.py *)

Module Logger.

(** The lines the module prints, one constructor per [print] call. *)
Inductive console_line : Type :=
  | PrintAttempting
  | PrintNoAccessToken
  | PrintCached
  | PrintFatal (e : request_exception)
  | PrintLogFailed (level_upper package message : string)
  | PrintSubmissionFailed (status : Z) (body : string)
  | PrintSendError (e : request_exception).

(** Module state: the global [auth_token_storage] ([None] initially), and
    the module's footprint outside the process: how many POSTs went to the
    auth endpoint, the events POSTed to the log endpoint (newest first) and
    the console (newest first).  An event is in [outbox] when its POST was
    carried out, whatever came back.  [token_lock] is held for the whole
    body of [get_auth_token]: executions of it are serialised, which is
    what the sequential state passing below describes. *)
Record logger : Type := MkLogger {
  auth_token_storage : option pydict;
  auth_posts : nat;
  outbox : list log_event;
  console : list console_line
}.

Definition initial : logger :=
  {| auth_token_storage := None; auth_posts := 0%nat;
     outbox := []; console := [] |}.

Definition print (l : console_line) (lg : logger) : logger :=
  {| auth_token_storage := auth_token_storage lg;
     auth_posts := auth_posts lg;
     outbox := outbox lg;
     console := l :: console lg |}.

(** [if auth_token_storage:] — a dict is truthy when it is not empty. *)
Definition storage_truthy (lg : logger) : bool :=
  match auth_token_storage lg with
  | Some (_ :: _) => true
  | _ => false
  end.

(** [str.upper] on the ASCII range, enough for the [LogLevel] literals. *)
Definition upper_ascii (c : ascii) : ascii :=
  let n := nat_of_ascii c in
  if (97 <=? n)%nat && (n <=? 122)%nat then ascii_of_nat (n - 32) else c.

Fixpoint upper (s : string) : string :=
  match s with
  | EmptyString => EmptyString
  | String c s' => String (upper_ascii c) (upper s')
  end.

Section WithEnv.
Context (env : Env).

(** [get_auth_token()]; Python's [None] result is [JNull]. *)
Definition get_auth_token (lg : logger) : outcome json * logger :=
  if storage_truthy lg then
    (Ok (dict_get (default [] (auth_token_storage lg)) "token"), lg)
  else
    let lg1 := print PrintAttempting lg in
    (* requests.post(config.AUTH_ENDPOINT, json=payload, timeout=10) *)
    let reply := auth_net env (auth_posts lg1) in
    let lg2 := {| auth_token_storage := auth_token_storage lg1;
                  auth_posts := S (auth_posts lg1);
                  outbox := outbox lg1;
                  console := console lg1 |} in
    match reply with
    | RequestException e => (Ok JNull, print (PrintFatal e) lg2)
    | Replied r =>
        match raise_for_status r with
        | Some e => (Ok JNull, print (PrintFatal e) lg2)
        | None =>
            match json_body r with
            | None => (Ok JNull, print (PrintFatal JSONDecodeError) lg2)
            | Some (JObj token_data) =>
                let access_token := dict_get token_data "access_token" in
                if negb (truthy access_token) then
                  (Ok JNull, print PrintNoAccessToken lg2)
                else
                  (Ok access_token,
                   print PrintCached
                     {| auth_token_storage := Some [("token", access_token)];
                        auth_posts := auth_posts lg2;
                        outbox := outbox lg2;
                        console := console lg2 |})
            | Some _ =>
                (* token_data.get on a list, str, number, bool or None *)
                (Raise AttributeError, lg2)
            end
        end
    end.

(** [Log(stack, level, package, message)].  The [try] around the POST
    catches [RequestException] only: the [UnicodeEncodeError] of a header
    that cannot be encoded leaves [Log], before anything is sent. *)
Definition Log (stack level package message : string) (lg : logger)
  : outcome unit * logger :=
  match get_auth_token lg with
  | (Ok token, lg1) =>
      if negb (truthy token) then
        (Ok tt, print (PrintLogFailed (upper level) package message) lg1)
      else if negb (header_encodable env token) then
        (* requests.post(..., headers={"Authorization": f"Bearer {token}"}) *)
        (Raise UnicodeEncodeError, lg1)
      else
        (* requests.post(config.LOG_ENDPOINT, headers=..., json=payload, timeout=5) *)
        let ev := LogEvent token stack level package message in
        let reply := log_net env (length (outbox lg1)) ev in
        let lg2 := {| auth_token_storage := auth_token_storage lg1;
                      auth_posts := auth_posts lg1;
                      outbox := ev :: outbox lg1;
                      console := console lg1 |} in
        match reply with
        | Replied r =>
            if negb (status_code r =? 200)
            then (Ok tt, print (PrintSubmissionFailed (status_code r) (text r)) lg2)
            else (Ok tt, lg2)
        | RequestException e => (Ok tt, print (PrintSendError e) lg2)
        end
  | (Raise e, lg1) => (Raise e, lg1)
  | (Diverge, lg1) => (Diverge, lg1)
  end.

End WithEnv.

(** *** Specification vocabulary *)

(** A token [t] is cached: the global holds the dict the success path of
    [get_auth_token] stores. *)
Definition cached (lg : logger) (t : json) : Prop :=
  auth_token_storage lg = Some [("token", t)] /\ truthy t = true.

(** The states the module can be in: nothing cached, or a token cached. *)
Definition wf (lg : logger) : Prop :=
  auth_token_storage lg = None \/ exists t, cached lg t.

(** An auth reply after which [Log] goes on to return: anything but a
    reply that passes [raise_for_status] with a JSON body that is not an
    object, or with an object that grants a token the Authorization header
    cannot carry. *)
Definition auth_reply_ok (env : Env) (o : http_outcome) : bool :=
  match o with
  | RequestException _ => true
  | Replied r =>
      match raise_for_status r, json_body r with
      | Some _, _ => true
      | None, None => true
      | None, Some (JObj token_data) =>
          let access_token := dict_get token_data "access_token" in
          negb (truthy access_token) || header_encodable env access_token
      | None, Some _ => false
      end
  end.

(** The logging backend is healthy when every auth reply is of that
    kind. *)
Definition healthy (env : Env) : Prop :=
  forall i, auth_reply_ok env (auth_net env i) = true.

(** Logging cannot interrupt the caller from the state [lg] on: the token
    that is cached can be sent, or nothing is cached and the backend is
    healthy. *)
Definition quiet (env : Env) (lg : logger) : Prop :=
  (exists t, cached lg t /\ header_encodable env t = true)
  \/ (storage_truthy lg = false /\ healthy env).

(** The calls a client of the module can make. *)
Inductive call : Type :=
  | CallGetAuthToken
  | CallLog (stack level package message : string).

Definition run_call (env : Env) (c : call) (lg : logger) : logger :=
  match c with
  | CallGetAuthToken => snd (get_auth_token env lg)
  | CallLog stack level package message =>
      snd (Log env stack level package message lg)
  end.

(** State after a sequence of calls, first call first; a call that raised
    leaves the state it reached. *)
Definition run_calls (env : Env) (cs : list call) (lg : logger) : logger :=
  fold_left (fun lg c => run_call env c lg) cs lg.

End Logger.

(** ** Wall-clock time: [datetime] and [timedelta] *)

Module Datetime.

(** An aware UTC [datetime] is its number of microseconds since
    0001-01-01T00:00:00Z, the resolution and origin of Python's type;
    representable values are those of [in_range]. *)
Definition US_PER_MINUTE : Z := 60 * 1000000.
Definition US_PER_DAY : Z := 86400 * 1000000.
(** [date.max.toordinal()], the ordinal of 9999-12-31. *)
Definition MAXORDINAL : Z := 3652059.
Definition MAX_DELTA_DAYS : Z := 999999999.

Definition in_range (t : Z) : bool :=
  (0 <=? t) && (t <? MAXORDINAL * US_PER_DAY).

(** [timedelta(minutes=m)], as microseconds; the constructor rejects a
    magnitude above 999999999 days. *)
Definition timedelta_minutes (m : Z) : outcome Z :=
  let us := m * US_PER_MINUTE in
  if Z.abs (us / US_PER_DAY) >? MAX_DELTA_DAYS
  then Raise OverflowError
  else Ok us.

(** [t + delta]: the sum, or [OverflowError] outside year 1..9999. *)
Definition add (t delta : Z) : outcome Z :=
  if in_range (t + delta) then Ok (t + delta)
  else Raise OverflowError.

(** [_ord2ymd] of the standard library: proleptic Gregorian ordinal
    (1 = 0001-01-01) to year, month, day. *)
Definition days_before_month (month : Z) : Z :=
  nth (Z.to_nat month)
      [0; 0; 31; 59; 90; 120; 151; 181; 212; 243; 273; 304; 334] 0.
Definition days_in_month (month : Z) : Z :=
  nth (Z.to_nat month)
      [0; 31; 28; 31; 30; 31; 30; 31; 31; 30; 31; 30; 31] 0.

Definition ord2ymd (ordinal : Z) : Z * Z * Z :=
  let n := ordinal - 1 in
  let n400 := n / 146097 in let n := n mod 146097 in
  let year := n400 * 400 + 1 in
  let n100 := n / 36524 in let n := n mod 36524 in
  let n4 := n / 1461 in let n := n mod 1461 in
  let n1 := n / 365 in let n := n mod 365 in
  let year := year + n100 * 100 + n4 * 4 + n1 in
  if (n1 =? 4) || (n100 =? 4) then (year - 1, 12, 31)
  else
    let leapyear := (n1 =? 3) && (negb (n4 =? 24) || (n100 =? 3)) in
    let month := Z.shiftr (n + 50) 5 in
    let preceding :=
      days_before_month month + (if (month >? 2) && leapyear then 1 else 0) in
    if preceding >? n then
      let month := month - 1 in
      let preceding :=
        preceding
        - (days_in_month month + (if (month =? 2) && leapyear then 1 else 0)) in
      (year, month, n - preceding + 1)
    else (year, month, n - preceding + 1).

(** Decimal digits, zero padded. *)
Definition digit (n : Z) : ascii := ascii_of_nat (48 + Z.to_nat (n mod 10)).

Definition pad2 (n : Z) (rest : string) : string :=
  String (digit (n / 10)) (String (digit n) rest).
Definition pad4 (n : Z) (rest : string) : string :=
  String (digit (n / 1000)) (String (digit (n / 100)) (pad2 n rest)).
Definition pad6 (n : Z) (rest : string) : string :=
  pad2 (n / 10000) (pad4 n rest).

(** The fields of a datetime. *)
Definition ymd (t : Z) : Z * Z * Z := ord2ymd (t / US_PER_DAY + 1).
Definition hour (t : Z) : Z := (t mod US_PER_DAY) / 3600000000.
Definition minute (t : Z) : Z := (t mod 3600000000) / 60000000.
Definition second (t : Z) : Z := (t mod 60000000) / 1000000.
Definition microsecond (t : Z) : Z := t mod 1000000.

Definition date_time_to (t : Z) (rest : string) : string :=
  let '(y, m, d) := ymd t in
  pad4 y (String "-" (pad2 m (String "-" (pad2 d (String "T"
    (pad2 (hour t) (String ":" (pad2 (minute t) (String ":"
      (pad2 (second t) rest)))))))))).

(** [t.strftime('%Y-%m-%dT%H:%M:%SZ')]; [%Y] as four digits, which is
    what the C library prints for the years from 1000 on. *)
Definition strftime_iso_z (t : Z) : string := date_time_to t "Z".

(** [t.isoformat()] of an aware UTC datetime: the fraction is printed
    only when it is not zero. *)
Definition isoformat (t : Z) : string :=
  date_time_to t
    (if microsecond t =? 0 then "+00:00"
     else String "." (pad6 (microsecond t) "+00:00")).

(** Shape of the text [strftime_iso_z] produces. *)
Definition is_digit (c : ascii) : bool :=
  let n := nat_of_ascii c in (48 <=? n)%nat && (n <=? 57)%nat.

Definition iso8601_utc_shape (s : string) : bool :=
  match list_ascii_of_string s with
  | [y1; y2; y3; y4; d1; m1; m2; d2; a1; a2; t; h1; h2; c1; n1; n2; c2;
     s1; s2; z] =>
      forallb is_digit [y1; y2; y3; y4; m1; m2; a1; a2; h1; h2; n1; n2; s1; s2]
      && forallb (fun p => Ascii.eqb (fst p) (snd p))
           [(d1, "-"%char); (d2, "-"%char); (t, "T"%char);
            (c1, ":"%char); (c2, ":"%char); (z, "Z"%char)]
  | _ => false
  end.

(** *** Reading a timestamp back *)

(** The month and day of day [n] (from 0) of a year, as [ord2ymd] finds
    them. *)
Definition month_day (n : Z) (leapyear : bool) : Z * Z :=
  let month := Z.shiftr (n + 50) 5 in
  let preceding :=
    days_before_month month + (if (month >? 2) && leapyear then 1 else 0) in
  if preceding >? n then
    let month := month - 1 in
    let preceding :=
      preceding
      - (days_in_month month + (if (month =? 2) && leapyear then 1 else 0)) in
    (month, n - preceding + 1)
  else (month, n - preceding + 1).

(** The test that [month_day] names day [k] of the year rightly. *)
Definition month_day_check (leapyear : bool) (k : nat) : bool :=
  let n := Z.of_nat k in
  let '(m, d) := month_day n leapyear in
  (1 <=? m) && (m <=? 12) && (1 <=? d)
  && (d <=? (if (m =? 2) && leapyear then 29 else days_in_month m))
  && (days_before_month m + (if (m >? 2) && leapyear then 1 else 0) + d
      =? n + 1).

(** [_is_leap], [_days_before_year], [_days_before_month], [_days_in_month]
    and [_ymd2ord] of the standard library: the calendar from year, month
    and day to the ordinal, the direction [ord2ymd] does not use. *)
Definition is_leap (year : Z) : bool :=
  (year mod 4 =? 0) && (negb (year mod 100 =? 0) || (year mod 400 =? 0)).

Definition days_before_year (year : Z) : Z :=
  let y := year - 1 in y * 365 + y / 4 - y / 100 + y / 400.

Definition year_days_before_month (year month : Z) : Z :=
  days_before_month month + (if (month >? 2) && is_leap year then 1 else 0).

Definition year_days_in_month (year month : Z) : Z :=
  if (month =? 2) && is_leap year then 29 else days_in_month month.

Definition ymd2ord (year month day : Z) : Z :=
  days_before_year year + year_days_before_month year month + day.

Definition digit_value (c : ascii) : option Z :=
  if is_digit c then Some (Z.of_nat (nat_of_ascii c) - 48) else None.

Definition number2 (a b : ascii) : option Z :=
  x ← digit_value a; y ← digit_value b; Some (10 * x + y).

Definition number4 (a b c d : ascii) : option Z :=
  x ← number2 a b; y ← number2 c d; Some (100 * x + y).

(** The instant an ISO-8601 text [YYYY-MM-DDTHH:MM:SSZ] denotes, as
    microseconds since 0001-01-01T00:00:00Z: the reading a client makes of
    the [expiry] field.  Texts of another shape, and texts that name no
    calendar date or time of day, denote nothing. *)
Definition parse_iso8601_utc (s : string) : option Z :=
  match list_ascii_of_string s with
  | [y1; y2; y3; y4; d1; m1; m2; d2; a1; a2; t; h1; h2; c1; n1; n2; c2;
     s1; s2; z] =>
      if forallb (fun p => Ascii.eqb (fst p) (snd p))
           [(d1, "-"%char); (d2, "-"%char); (t, "T"%char);
            (c1, ":"%char); (c2, ":"%char); (z, "Z"%char)]
      then
        year ← number4 y1 y2 y3 y4;
        month ← number2 m1 m2;
        day ← number2 a1 a2;
        hh ← number2 h1 h2;
        mm ← number2 n1 n2;
        ss ← number2 s1 s2;
        if (1 <=? year) && (1 <=? month) && (month <=? 12)
           && (1 <=? day) && (day <=? year_days_in_month year month)
           && (hh <? 24) && (mm <? 60) && (ss <? 60)
        then Some (((ymd2ord year month day - 1) * 86400
                    + hh * 3600 + mm * 60 + ss) * 1000000)
        else None
      else None
  | _ => None
  end.

End Datetime.

(** ** [urllib.parse.quote] *)

Module Urllib.

(** A text is its UTF-8 bytes, which is what [quote] works on. *)

(** The bytes [quote] never escapes: ASCII letters, digits and [_.-~]. *)
Definition always_safe (c : ascii) : bool :=
  let n := nat_of_ascii c in
  ((97 <=? n) && (n <=? 122) || (65 <=? n) && (n <=? 90)
   || (48 <=? n) && (n <=? 57))%nat
  || existsb (Ascii.eqb c) (list_ascii_of_string "_.-~").

Definition kept (safe : string) (c : ascii) : bool :=
  always_safe c || existsb (Ascii.eqb c) (list_ascii_of_string safe).

Definition hex_digit (n : nat) : ascii :=
  nth n (list_ascii_of_string "0123456789ABCDEF") "0"%char.

(** [quote(s, safe=safe)]: every byte that is not kept becomes [%XX],
    upper-case hexadecimal. *)
Fixpoint quote (safe s : string) : string :=
  match s with
  | EmptyString => EmptyString
  | String c s' =>
      if kept safe c then String c (quote safe s')
      else
        let n := nat_of_ascii c in
        String "%" (String (hex_digit (n / 16))
                      (String (hex_digit (n mod 16)) (quote safe s')))
  end.

End Urllib.

(** ** main.py *)

Module Main.

(** A value of [url_db]: the dict with keys ["long_url"] and
    ["expiry_utc"]. *)
Record entry : Type := Entry {
  long_url : string;
  expiry_utc : Z
}.

(** Process state: the global [url_db], the state of the imported logger
    and the number of entropy draws consumed so far. *)
Record world : Type := World {
  url_db : gmap string entry;
  log_state : Logger.logger;
  draws : nat
}.

Definition initial : world :=
  {| url_db := ∅; log_state := Logger.initial; draws := 0%nat |}.

(** State and exception monad of the handlers. *)
Definition M (A : Type) : Type := world -> outcome A * world.

Definition ret {A} (a : A) : M A := fun w => (Ok a, w).
Definition raise {A} (e : exn) : M A := fun w => (Raise e, w).
Definition diverge {A} : M A := fun w => (Diverge, w).
Definition bind {A B} (k : A -> M B) (m : M A) : M B :=
  fun w =>
    match m w with
    | (Ok a, w') => k a w'
    | (Raise e, w') => (Raise e, w')
    | (Diverge, w') => (Diverge, w')
    end.
Definition lift {A} (o : outcome A) : M A := fun w => (o, w).

#[export] Instance M_ret : MRet M := @ret.
#[export] Instance M_bind : MBind M := @bind.

(** The request model [URLShortenRequest] after validation; [url] is the
    text [str(request_data.url)] of the parsed [HttpUrl]. *)
Record URLShortenRequest : Type := {
  url : string;
  validity : Z;
  shortcode : option string
}.

Record URLShortenResponse : Type := {
  shortlink : string;
  expiry : string
}.

(** A [RedirectResponse]: the status and the [Location] header. *)
Record RedirectResponse : Type := {
  redirect_status : Z;
  location : string
}.

(** [RedirectResponse(url=...)] of Starlette: the default status is 307,
    and the constructor sets the header to
    [quote(str(url), safe=":/%#?=@[]!$&'()*+,;")]. *)
Definition REDIRECT_SAFE : string := ":/%#?=@[]!$&'()*+,;".

Definition redirect_response (url : string) : RedirectResponse :=
  {| redirect_status := 307;
     location := Urllib.quote REDIRECT_SAFE url |}.

(** [status.HTTP_201_CREATED], the [status_code] of the decorator of
    [create_short_url]. *)
Definition HTTP_201_CREATED : Z := 201.

(** The body of a POST /shorturls before validation. *)
Record raw_request : Type := {
  raw_url : string;
  raw_validity : option Z;
  raw_shortcode : option string
}.

(** [string.ascii_letters + string.digits]. *)
Definition chars : string :=
  "abcdefghijklmnopqrstuvwxyzABCDEFGHIJKLMNOPQRSTUVWXYZ0123456789".

(** One character of the class [[a-zA-Z0-9_\-]] of the [pattern]. *)
Definition is_alnum (c : ascii) : bool :=
  let n := nat_of_ascii c in
  ((97 <=? n) && (n <=? 122) || (65 <=? n) && (n <=? 90)
   || (48 <=? n) && (n <=? 57))%nat.

Definition pattern_char (c : ascii) : bool :=
  is_alnum c || Ascii.eqb c "_" || Ascii.eqb c "-".

(** The [Field] constraints on [shortcode]: [min_length=4],
    [max_length=12] and the pattern, which needs one character or more. *)
Definition shortcode_field_ok (s : string) : bool :=
  (4 <=? String.length s)%nat && (String.length s <=? 12)%nat
  && forallb pattern_char (list_ascii_of_string s).

Section WithConfig.
Context (cfg : Config) (env : Env).
(** [HttpUrl] validation is pydantic's: it yields the normalised text of an
    accepted URL and nothing for a rejected one. *)
Context (parse_http_url : string -> option string).

(** Validation of a request body into [URLShortenRequest]: the default of
    [validity] is taken as it is, a supplied value must satisfy [gt=0]. *)
Definition validate (raw : raw_request) : option URLShortenRequest :=
  match parse_http_url (raw_url raw) with
  | None => None
  | Some u =>
      match raw_validity raw with
      | Some v => if v >? 0 then Some v else None
      | None => Some (DEFAULT_VALIDITY_MINUTES cfg)
      end ≫= fun v =>
      match raw_shortcode raw with
      | Some s =>
          if shortcode_field_ok s
          then Some {| url := u; validity := v; shortcode := Some s |}
          else None
      | None => Some {| url := u; validity := v; shortcode := None |}
      end
  end.

(** The imported [Log], acting on the logger component of the world. *)
Definition Log (stack level package message : string) : M unit :=
  fun w =>
    let '(o, lg) := Logger.Log env stack level package message (log_state w) in
    (o, {| url_db := url_db w; log_state := lg; draws := draws w |}).

(** [secrets.choice(chars)] on the draw number [i]: an index below
    [len(chars)], as [randbelow] guarantees. *)
Definition secrets_choice (i : nat) : ascii :=
  nth (entropy env i mod String.length chars)%nat
      (list_ascii_of_string chars) "a"%char.

(** [''.join(secrets.choice(chars) for _ in range(n))], drawing from
    position [i] on. *)
Fixpoint join_choices (n i : nat) : string :=
  match n with
  | O => EmptyString
  | S n' => String (secrets_choice i) (join_choices n' (S i))
  end.

Definition random_shortcode : M string :=
  fun w =>
    (Ok (join_choices (SHORTCODE_LENGTH cfg) (draws w)),
     {| url_db := url_db w; log_state := log_state w;
        draws := (draws w + SHORTCODE_LENGTH cfg)%nat |}).

Definition get_db : M (gmap string entry) := fun w => (Ok (url_db w), w).

Definition db_insert (k : string) (e : entry) : M unit :=
  fun w => (Ok tt, {| url_db := <[k := e]> (url_db w);
                      log_state := log_state w; draws := draws w |}).

Definition db_delete (k : string) : M unit :=
  fun w => (Ok tt, {| url_db := delete k (url_db w);
                      log_state := log_state w; draws := draws w |}).

(** The [while True] loop of [generate_unique_shortcode], with fuel. *)
Fixpoint generate_loop (fuel : nat) : M string :=
  match fuel with
  | O => diverge
  | S fuel' =>
      code ← random_shortcode;
      db ← get_db;
      match db !! code with
      | None =>
          Log "backend" "debug" "service"
              ("Generated shortcode '" +:+ code +:+ "' is unique.");;
          ret code
      | Some _ => generate_loop fuel'
      end
  end.

Definition generate_unique_shortcode (fuel : nat) : M string :=
  Log "backend" "info" "service" "Generating a new unique shortcode.";;
  generate_loop fuel.

(** [create_short_url(request_data)], with [now] the value of
    [datetime.now(timezone.utc)] at line 75. *)
Definition create_short_url (request_data : URLShortenRequest) (now : Z)
    (fuel : nat) : M URLShortenResponse :=
  Log "backend" "info" "handler"
      ("Received request to shorten URL: " +:+ url request_data);;
  code ← match shortcode request_data with
         | Some (String c s as custom) =>
             Log "backend" "debug" "handler"
                 ("Custom shortcode '" +:+ custom +:+ "' was provided.");;
             db ← get_db;
             match db !! custom with
             | Some _ =>
                 Log "backend" "warn" "handler"
                     ("Custom shortcode '" +:+ custom
                      +:+ "' is unavailable. Generating a new one.");;
                 generate_unique_shortcode fuel
             | None => ret custom
             end
         | _ =>
             Log "backend" "debug" "handler"
                 "No custom shortcode provided. Generating a new one.";;
             generate_unique_shortcode fuel
         end;
  delta ← lift (Datetime.timedelta_minutes (validity request_data));
  expiry_datetime_utc ← lift (Datetime.add now delta);
  Log "backend" "debug" "service"
      ("Calculated expiry for '" +:+ code +:+ "': "
       +:+ Datetime.isoformat expiry_datetime_utc);;
  db_insert code {| long_url := url request_data;
                    expiry_utc := expiry_datetime_utc |};;
  Log "backend" "info" "db"
      ("Successfully stored mapping for shortcode '" +:+ code +:+ "'.");;
  ret {| shortlink := BASE_SHORT_URL cfg +:+ "/" +:+ code;
         expiry := Datetime.strftime_iso_z expiry_datetime_utc |}.

(** [redirect_to_long_url(shortcode)], with [now] the value of
    [datetime.now(timezone.utc)] at line 103. *)
Definition redirect_to_long_url (code : string) (now : Z)
  : M RedirectResponse :=
  Log "backend" "info" "handler"
      ("Redirect request received for shortcode: '" +:+ code +:+ "'.");;
  db ← get_db;
  match db !! code with
  | None =>
      Log "backend" "error" "handler"
          ("Shortcode '" +:+ code +:+ "' not found in database.");;
      raise (HTTPException 404 "Short URL not found.")
  | Some url_data =>
      if now >? expiry_utc url_data then
        Log "backend" "warn" "handler"
            ("Shortcode '" +:+ code +:+ "' has expired. Removing from DB.");;
        db_delete code;;
        raise (HTTPException 410 "This Short URL has expired.")
      else
        Log "backend" "info" "handler"
            ("Successfully redirecting '" +:+ code
             +:+ "' to its destination.");;
        ret (redirect_response (long_url url_data))
  end.

(** [health_check()]. *)
Definition health_check : M string :=
  Log "backend" "info" "route" "Health check endpoint was hit.";;
  ret "URL Shortener service is running".

(** *** Specification vocabulary *)

(** Lines 64 to 73 of [create_short_url] on their own: the computation
    that settles on the shortcode.  [create_short_url] above contains this
    very term. *)
Definition settle_shortcode (request_data : URLShortenRequest)
    (fuel : nat) : M string :=
  match shortcode request_data with
  | Some (String c s as custom) =>
      Log "backend" "debug" "handler"
          ("Custom shortcode '" +:+ custom +:+ "' was provided.");;
      db ← get_db;
      match db !! custom with
      | Some _ =>
          Log "backend" "warn" "handler"
              ("Custom shortcode '" +:+ custom
               +:+ "' is unavailable. Generating a new one.");;
          generate_unique_shortcode fuel
      | None => ret custom
      end
  | _ =>
      Log "backend" "debug" "handler"
          "No custom shortcode provided. Generating a new one.";;
      generate_unique_shortcode fuel
  end.

(** Line 62, then lines 64 to 73: [create_short_url] up to the point
    where the shortcode is settled and nothing is stored yet. *)
Definition create_prefix (request_data : URLShortenRequest) (fuel : nat)
  : M string :=
  Log "backend" "info" "handler"
      ("Received request to shorten URL: " +:+ url request_data);;
  settle_shortcode request_data fuel.

(** Lines 75 to 87 of [create_short_url] on their own: what the handler
    does once the shortcode is settled.  [create_short_url] contains this
    very term. *)
Definition finish_create (request_data : URLShortenRequest) (now : Z)
    (code : string) : M URLShortenResponse :=
  delta ← lift (Datetime.timedelta_minutes (validity request_data));
  expiry_datetime_utc ← lift (Datetime.add now delta);
  Log "backend" "debug" "service"
      ("Calculated expiry for '" +:+ code +:+ "': "
       +:+ Datetime.isoformat expiry_datetime_utc);;
  db_insert code {| long_url := url request_data;
                    expiry_utc := expiry_datetime_utc |};;
  Log "backend" "info" "db"
      ("Successfully stored mapping for shortcode '" +:+ code +:+ "'.");;
  ret {| shortlink := BASE_SHORT_URL cfg +:+ "/" +:+ code;
         expiry := Datetime.strftime_iso_z expiry_datetime_utc |}.

(** The status line FastAPI sends for an outcome of a handler declared
    with success status [success]: an [HTTPException] carries its own
    status, any other exception becomes 500, a run that does not end sends
    nothing. *)
Definition http_status {A} (success : Z) (o : outcome A) : option Z :=
  match o with
  | Ok _ => Some success
  | Raise (HTTPException s _) => Some s
  | Raise _ => Some 500
  | Diverge => None
  end.

(** The candidate drawn by attempt number [k] of the generator loop
    started in [w]. *)
Definition candidate (k : nat) (w : world) : string :=
  join_choices (SHORTCODE_LENGTH cfg) (draws w + k * SHORTCODE_LENGTH cfg).

(** Some attempt among the first [fuel] draws a code that is free. *)
Definition fresh_within (fuel : nat) (w : world) : Prop :=
  exists k, (k < fuel)%nat /\ url_db w !! candidate k w = None.

(** The handler can settle on a shortcode: the custom one is free, or
    the generator finds one. *)
Definition can_allocate (request_data : URLShortenRequest) (fuel : nat)
    (w : world) : Prop :=
  (exists c, shortcode request_data = Some c /\ c <> EmptyString
             /\ url_db w !! c = None)
  \/ fresh_within fuel w.

(** Where the code a successful create settles on comes from: it is the
    custom one, or it was drawn by the generator because no custom one was
    given or the custom one was taken. *)
Definition allocated (request_data : URLShortenRequest) (w : world)
    (code : string) : Prop :=
  (shortcode request_data = Some code /\ code <> EmptyString)
  \/ ((exists i, code = join_choices (SHORTCODE_LENGTH cfg) i)
      /\ forall c, shortcode request_data = Some c -> c <> EmptyString ->
                   is_Some (url_db w !! c)).

(** Successive GETs of one shortcode at the given times: the outcomes in
    order, and the final state. *)
Fixpoint redirects (code : string) (times : list Z) (w : world)
  : list (outcome RedirectResponse) * world :=
  match times with
  | [] => ([], w)
  | now :: times' =>
      let '(o, w1) := redirect_to_long_url code now w in
      let '(os, w2) := redirects code times' w1 in
      (o :: os, w2)
  end.

(** The status line of POST /shorturls. *)
Definition shorturls_status (o : outcome URLShortenResponse) : option Z :=
  http_status HTTP_201_CREATED o.

(** The requests the service handles, each with the clock value its
    handler reads. *)
Inductive request : Type :=
  | PostShorturls (request_data : URLShortenRequest) (now : Z) (fuel : nat)
  | GetShortcode (code : string) (now : Z)
  | GetRoot.

Definition handle (r : request) (w : world) : world :=
  match r with
  | PostShorturls request_data now fuel =>
      snd (create_short_url request_data now fuel w)
  | GetShortcode code now => snd (redirect_to_long_url code now w)
  | GetRoot => snd (health_check w)
  end.

(** State after a sequence of requests handled one after another, first
    request first: each handler runs to its end before the next starts. *)
Definition handle_all (rs : list request) (w : world) : world :=
  fold_left (fun w r => handle r w) rs w.

(** That is one schedule among those the service has.  The three handlers
    are plain [def] functions, which FastAPI runs on the threads of a pool:
    two requests can be in their handlers at once, and a thread gives way
    to another at any point, in particular while a [Log] call waits for the
    network.  [url_db] has no lock ([auth_token_storage] has
    [token_lock]), so nothing keeps the lines of two handlers from
    alternating.

    [overlapped_creates] is one such schedule of two POST /shorturls: both
    handlers get past the membership test of line 68 or of the generator
    before either reaches the assignment of line 78. *)
Definition overlapped_creates (a : URLShortenRequest) (now_a : Z)
    (b : URLShortenRequest) (now_b : Z) (fuel : nat)
  : M (URLShortenResponse * URLShortenResponse) :=
  code_a ← create_prefix a fuel;
  code_b ← create_prefix b fuel;
  resp_a ← finish_create a now_a code_a;
  resp_b ← finish_create b now_b code_b;
  ret (resp_a, resp_b).

End WithConfig.

(** The shortcode a client reads off a short link: the path segment after
    the last ["/"]. *)
Fixpoint has_slash (s : string) : bool :=
  match s with
  | EmptyString => false
  | String c s' => Ascii.eqb c "/" || has_slash s'
  end.

Fixpoint last_segment (s : string) : string :=
  match s with
  | EmptyString => EmptyString
  | String c s' =>
      if has_slash s' then last_segment s'
      else if Ascii.eqb c "/" then s' else String c s'
  end.

End Main.

(** ** Concrete configurations, environments and states *)

Module Examples.
Import Main.

Definition cfg : Config :=
  {| BASE_SHORT_URL := "http://localhost:8000";
     DEFAULT_VALIDITY_MINUTES := 30;
     SHORTCODE_LENGTH := 6;
     AUTH_ENDPOINT := "http://logs.test/auth";
     LOG_ENDPOINT := "http://logs.test/logs" |}.

(** A text whose code points are all below 256: its UTF-8 bytes have no
    lead byte above [0xC3]. *)
Definition latin1_text (s : string) : bool :=
  forallb (fun c => (nat_of_ascii c <? 196)%nat) (list_ascii_of_string s).

(** The header test of the environments below: exact on the tokens that
    are strings, the only ones these environments grant. *)
Definition latin1_token (t : json) : bool :=
  match t with
  | JStr s => latin1_text s
  | _ => true
  end.

(** A logging backend that cannot be reached. *)
Definition env_down : Env :=
  {| auth_net := fun _ => RequestException ReadTimeout;
     log_net := fun _ _ => RequestException ReadTimeout;
     header_encodable := latin1_token;
     entropy := fun i => i |}.

(** An auth endpoint that grants a token, a log endpoint that accepts. *)
Definition granting_env : Env :=
  {| auth_net := fun _ =>
       Replied {| status_code := 200; text := EmptyString;
                  json_body := Some (JObj [("access_token", JStr "tok")]) |};
     log_net := fun _ _ =>
       Replied {| status_code := 200; text := EmptyString; json_body := None |};
     header_encodable := latin1_token;
     entropy := fun i => i |}.

(** The UTF-8 bytes of U+2603, a character outside latin-1. *)
Definition snowman : string :=
  String (ascii_of_nat 226) (String (ascii_of_nat 152)
    (String (ascii_of_nat 131) EmptyString)).

(** An auth endpoint that grants a token the header cannot carry. *)
Definition snowman_env : Env :=
  {| auth_net := fun _ =>
       Replied {| status_code := 200; text := EmptyString;
                  json_body := Some (JObj [("access_token", JStr snowman)]) |};
     log_net := fun _ _ =>
       Replied {| status_code := 200; text := EmptyString; json_body := None |};
     header_encodable := latin1_token;
     entropy := fun i => i |}.

(** An auth endpoint answering 200 with the JSON array [[]]. *)
Definition array_env : Env :=
  {| auth_net := fun _ =>
       Replied {| status_code := 200; text := "[]";
                  json_body := Some (JArr []) |};
     log_net := fun _ _ =>
       Replied {| status_code := 200; text := EmptyString; json_body := None |};
     header_encodable := latin1_token;
     entropy := fun i => i |}.

(** A URL parser that accepts every text as it is. *)
Definition parse_any (s : string) : option string := Some s.

(** 2026-01-01T00:00:00Z. *)
Definition now0 : Z := (739617 - 1) * Datetime.US_PER_DAY.

Definition raw_abcd : raw_request :=
  {| raw_url := "https://example.com/page";
     raw_validity := Some 1;
     raw_shortcode := Some "abcd" |}.

Definition req_abcd : URLShortenRequest :=
  {| url := "https://example.com/page";
     validity := 1;
     shortcode := Some "abcd" |}.

Definition entry_abcd : entry :=
  {| long_url := "https://example.com/page";
     expiry_utc := now0 + 60000000 |}.

(** The state after [req_abcd] was served at [now0] by a fresh process. *)
Definition w_abcd : world :=
  {| url_db := {[ "abcd" := entry_abcd ]};
     log_state := Logger.initial;
     draws := 0%nat |}.

(** Another request for the code ["abcd"]. *)
Definition req_abcd_too : URLShortenRequest :=
  {| url := "https://example.org/other";
     validity := 30;
     shortcode := Some "abcd" |}.

(** A request whose URL has a vertical bar in its path. *)
Definition raw_pipe : raw_request :=
  {| raw_url := "https://example.com/a|b";
     raw_validity := Some 1;
     raw_shortcode := Some "pipe" |}.

Definition req_pipe : URLShortenRequest :=
  {| url := "https://example.com/a|b";
     validity := 1;
     shortcode := Some "pipe" |}.

Definition entry_pipe : entry :=
  {| long_url := "https://example.com/a|b";
     expiry_utc := now0 + 60000000 |}.

(** The state after [req_pipe] was served at [now0] by a fresh process
    whose logging backend is down. *)
Definition w_pipe : world :=
  snd (create_short_url cfg env_down req_pipe now0 1 Main.initial).

(** A request for the taken code ["abcd"] with a validity of 10^10
    minutes, some nineteen thousand years. *)
Definition raw_far : raw_request :=
  {| raw_url := "https://example.com";
     raw_validity := Some 10000000000;
     raw_shortcode := Some "abcd" |}.

Definition req_far : URLShortenRequest :=
  {| url := "https://example.com";
     validity := 10000000000;
     shortcode := Some "abcd" |}.

End Examples.

(** ** Further specification vocabulary *)

Module Vocabulary.
Import Main.

(** An auth reply that yields no token without faulting: a transport
    error, a 4xx or 5xx status, a body that is not JSON, or an object whose
    ["access_token"] is missing or falsy. *)
Definition auth_reply_denies (o : http_outcome) : bool :=
  match o with
  | RequestException _ => true
  | Replied r =>
      match raise_for_status r, json_body r with
      | Some _, _ => true
      | None, None => true
      | None, Some (JObj items) => negb (truthy (dict_get items "access_token"))
      | None, Some _ => false
      end
  end.

(** An auth reply that makes [get_auth_token] raise: it passes
    [raise_for_status] and its JSON body is not an object, so
    [token_data.get] is an [AttributeError]. *)
Definition auth_reply_faults (o : http_outcome) : bool :=
  match o with
  | RequestException _ => false
  | Replied r =>
      match raise_for_status r, json_body r with
      | None, Some (JObj _) => false
      | None, Some _ => true
      | _, _ => false
      end
  end.

(** The exceptions a [Log] call can raise. *)
Definition log_exception (e : exn) : bool :=
  match e with
  | AttributeError | UnicodeEncodeError => true
  | _ => false
  end.

(** The token an auth reply grants, when it grants one. *)
Definition auth_reply_grants (o : http_outcome) : option json :=
  match o with
  | RequestException _ => None
  | Replied r =>
      match raise_for_status r, json_body r with
      | None, Some (JObj items) =>
          if truthy (dict_get items "access_token")
          then Some (dict_get items "access_token") else None
      | _, _ => None
      end
  end.

(** What a log submission leaves on the console. *)
Definition submission_console (o : http_outcome)
    (console : list Logger.console_line) : list Logger.console_line :=
  match o with
  | Replied r =>
      if status_code r =? 200 then console
      else Logger.PrintSubmissionFailed (status_code r) (text r) :: console
  | RequestException e => Logger.PrintSendError e :: console
  end.

(** Nothing was sent while no token is cached; otherwise every event sent
    carries the cached token. *)
Definition outbox_inv (lg : Logger.logger) : Prop :=
  (Logger.auth_token_storage lg = None /\ Logger.outbox lg = [])
  \/ exists t, Logger.cached lg t
       /\ Forall (fun ev => ev_token ev = t) (Logger.outbox lg).

(** The store an access leaves: the entry is evicted when it has expired. *)
Definition redirect_store (db : gmap string entry) (code : string)
    (now : Z) : gmap string entry :=
  match db !! code with
  | Some e => if now >? expiry_utc e then delete code db else db
  | None => db
  end.

(** A stored key is a shortcode the service can have produced: characters
    of the pattern, and the length of a custom or of a generated code. *)
Definition key_ok (cfg : Config) (k : string) : Prop :=
  forallb pattern_char (list_ascii_of_string k) = true
  /\ ((4 <= String.length k <= 12)%nat
      \/ String.length k = SHORTCODE_LENGTH cfg).

(** A request as FastAPI hands it to a handler: the body of a create has
    passed the [Field] constraints on [shortcode]. *)
Definition request_ok (r : request) : Prop :=
  match r with
  | PostShorturls request_data _ _ =>
      forall s, shortcode request_data = Some s -> shortcode_field_ok s = true
  | _ => True
  end.

(** Lines 75 of [create_short_url]: the expiry, or the [OverflowError] of
    [timedelta] or of the addition. *)
Definition expiry_of (now validity : Z) : outcome Z :=
  match Datetime.timedelta_minutes validity with
  | Ok delta => Datetime.add now delta
  | Raise e => Raise e
  | Diverge => Diverge
  end.

(** The first [k] candidates of the generator started in [w] are taken
    and candidate number [k] is free. *)
Definition first_free (cfg : Config) (env : Env) (k : nat) (w : world)
  : Prop :=
  (forall j, (j < k)%nat -> is_Some (url_db w !! candidate cfg env j w))
  /\ url_db w !! candidate cfg env k w = None.

(** The answer of the redirect handler, read off the store and the clock. *)
Definition redirect_answer (db : gmap string entry) (code : string)
    (now : Z) : outcome RedirectResponse :=
  match db !! code with
  | None => Raise (HTTPException 404 "Short URL not found.")
  | Some e =>
      if now >? expiry_utc e
      then Raise (HTTPException 410 "This Short URL has expired.")
      else Ok (redirect_response (long_url e))
  end.

End Vocabulary.

(** ** Further concrete states *)

Module MoreExamples.
Import Main Examples.

(** A logger that holds the token ["tok"]. *)
Definition lg_token : Logger.logger :=
  {| Logger.auth_token_storage := Some [("token", JStr "tok")];
     Logger.auth_posts := 1%nat;
     Logger.outbox := [];
     Logger.console := [] |}.

(** A process that holds the token and stores ["abcd"]. *)
Definition w_token : world :=
  {| url_db := {[ "abcd" := entry_abcd ]};
     log_state := lg_token;
     draws := 0%nat |}.

(** A store in which the first candidate of [env_down], ["abcdef"], is
    taken. *)
Definition w_taken : world :=
  {| url_db := {[ "abcdef" := entry_abcd ]};
     log_state := Logger.initial;
     draws := 0%nat |}.

(** The response to [req_abcd] served at [now0]. *)
Definition resp_abcd : URLShortenResponse :=
  {| shortlink := "http://localhost:8000/abcd";
     expiry := "2026-01-01T00:01:00Z" |}.

(** The response to a second [req_abcd], which gets a generated code. *)
Definition resp_abcdef : URLShortenResponse :=
  {| shortlink := "http://localhost:8000/abcdef";
     expiry := "2026-01-01T00:01:00Z" |}.

(** A request for another custom code. *)
Definition raw_wxyz : raw_request :=
  {| raw_url := "https://example.org/";
     raw_validity := None;
     raw_shortcode := Some "wxyz" |}.

Definition req_wxyz : URLShortenRequest :=
  {| url := "https://example.org/";
     validity := 30;
     shortcode := Some "wxyz" |}.

Definition resp_wxyz : URLShortenResponse :=
  {| shortlink := "http://localhost:8000/wxyz";
     expiry := "2026-01-01T00:30:00Z" |}.

Definition some_calls : list Logger.call :=
  [Logger.CallLog "backend" "info" "route" "a";
   Logger.CallGetAuthToken;
   Logger.CallLog "backend" "warn" "handler" "b"].

Definition some_requests : list request :=
  [GetRoot;
   PostShorturls req_abcd now0 1;
   PostShorturls req_abcd now0 1;
   GetShortcode "abcd" (now0 + 61000000);
   GetShortcode "abcdef" now0].

End MoreExamples.

(** ** Properties of the logging client *)

Module LoggerFacts.
Import Logger.

Lemma storage_truthy_cached lg t : cached lg t -> storage_truthy lg = true.
Proof. intros [H _]. unfold storage_truthy. now rewrite H. Qed.

Lemma storage_truthy_wf lg :
  wf lg -> (storage_truthy lg = false <-> auth_token_storage lg = None).
Proof.
  intros [H | [t Ht]].
  - unfold storage_truthy. rewrite H. tauto.
  - rewrite (storage_truthy_cached _ _ Ht). destruct Ht as [Ht _].
    rewrite Ht. split; discriminate.
Qed.

(** With a token cached, [get_auth_token] is a pure read. *)
Lemma get_auth_token_cached env lg t :
  cached lg t -> get_auth_token env lg = (Ok t, lg).
Proof.
  intros Hc. unfold get_auth_token.
  rewrite (storage_truthy_cached _ _ Hc). destruct Hc as [-> _].
  reflexivity.
Qed.

(** Without one, exactly one POST goes to the auth endpoint. *)
Lemma get_auth_token_uncached env lg :
  storage_truthy lg = false ->
  auth_posts (snd (get_auth_token env lg)) = S (auth_posts lg).
Proof.
  intros Hs. unfold get_auth_token. rewrite Hs. cbn.
  destruct (auth_net env (auth_posts lg)) as [r | e]; [ | reflexivity].
  destruct (raise_for_status r); [reflexivity | ].
  destruct (json_body r) as [[ | | | | | items] | ]; try reflexivity.
  destruct (negb _); reflexivity.
Qed.

Lemma get_auth_token_wf env lg : wf lg -> wf (snd (get_auth_token env lg)).
Proof.
  intros Hwf. destruct Hwf as [Hn | [t Ht]].
  - unfold get_auth_token, storage_truthy. rewrite Hn. cbn.
    destruct (auth_net env (auth_posts lg)) as [r | e]; [ | now left].
    destruct (raise_for_status r); [now left | ].
    destruct (json_body r) as [[ | | | | | items] | ]; try now left.
    destruct (truthy (dict_get items "access_token")) eqn:Ht; cbn.
    + right. exists (dict_get items "access_token"). now split.
    + now left.
  - rewrite (get_auth_token_cached _ _ _ Ht). right. now exists t.
Qed.

(** [Log] with a token cached leaves the cache and the auth endpoint
    alone, whether it returns or the header cannot be encoded. *)
Lemma Log_cached env stack level package message lg t :
  cached lg t ->
  auth_token_storage (snd (Log env stack level package message lg))
  = auth_token_storage lg
  /\ auth_posts (snd (Log env stack level package message lg))
     = auth_posts lg.
Proof.
  intros Hc. unfold Log. rewrite (get_auth_token_cached _ _ _ Hc).
  destruct Hc as [_ Ht]. rewrite Ht. cbn.
  destruct (header_encodable env t); cbn; [ | now split].
  destruct (log_net env (length (outbox lg)) _) as [r | e]; [ | now split].
  destruct (negb (status_code r =? 200)); now split.
Qed.

Lemma Log_wf env stack level package message lg :
  wf lg -> wf (snd (Log env stack level package message lg)).
Proof.
  intros Hwf. unfold Log.
  pose proof (get_auth_token_wf env lg Hwf) as H1.
  destruct (get_auth_token env lg) as [[token | e | ] lg1]; cbn in *; auto.
  assert (Hkeep : forall l, wf (print l lg1)) by (intros l; exact H1).
  destruct (negb (truthy token)); cbn; [apply Hkeep | ].
  destruct (header_encodable env token); cbn; [ | exact H1].
  destruct (log_net env (length (outbox lg1)) _) as [r | e]; cbn.
  - destruct (negb (status_code r =? 200)); exact H1.
  - exact H1.
Qed.

Lemma run_call_cached env c lg t :
  cached lg t ->
  cached (run_call env c lg) t /\ auth_posts (run_call env c lg) = auth_posts lg.
Proof.
  intros Hc. destruct c as [ | stack level package message]; cbn.
  - rewrite (get_auth_token_cached _ _ _ Hc). now split.
  - destruct (Log_cached env stack level package message lg t Hc)
      as [Hs Hp]. split; [ | exact Hp].
    destruct Hc as [Hc Ht]. split; [congruence | exact Ht].
Qed.

Lemma run_calls_cached env cs : forall lg t,
  cached lg t ->
  cached (run_calls env cs lg) t
  /\ auth_posts (run_calls env cs lg) = auth_posts lg.
Proof.
  induction cs as [ | c cs IH]; intros lg t Hc.
  - now split.
  - change (run_calls env (c :: cs) lg)
      with (run_calls env cs (run_call env c lg)).
    destruct (run_call_cached env c lg t Hc) as [Hc' Hp'].
    destruct (IH _ _ Hc') as [Hc'' Hp'']. split; [exact Hc'' | now rewrite Hp''].
Qed.

(** Every state the module reaches from its initial one is well formed. *)
Lemma run_calls_wf env cs : forall lg, wf lg -> wf (run_calls env cs lg).
Proof.
  induction cs as [ | c cs IH]; intros lg Hwf; [exact Hwf | ].
  change (run_calls env (c :: cs) lg)
    with (run_calls env cs (run_call env c lg)).
  apply IH. destruct c as [ | stack level package message]; cbn [run_call].
  - now apply get_auth_token_wf.
  - now apply Log_wf.
Qed.

Lemma reachable_wf env cs : wf (run_calls env cs initial).
Proof. apply run_calls_wf. now left. Qed.

(** From a quiet state [get_auth_token] returns a token the header can
    carry, or none, and the state stays quiet. *)
Lemma get_auth_token_returns env lg :
  quiet env lg ->
  exists token lg', get_auth_token env lg = (Ok token, lg')
    /\ (truthy token = true -> header_encodable env token = true)
    /\ quiet env lg'.
Proof.
  intros [(t & Hc & He) | [Hs Hh]].
  - exists t, lg. rewrite (get_auth_token_cached _ _ _ Hc).
    split; [reflexivity | split; [now intros _ | left; now exists t]].
  - assert (Hq : forall l lg1, storage_truthy lg1 = false ->
                      quiet env (print l lg1)).
    { intros l lg1 H1. right. now split. }
    unfold get_auth_token. rewrite Hs. cbn.
    pose proof (Hh (auth_posts lg)) as Hi. unfold auth_reply_ok in Hi.
    destruct (auth_net env (auth_posts lg)) as [r | e].
    2:{ eexists _, _. split; [reflexivity | ].
        split; [discriminate | now apply Hq]. }
    destruct (raise_for_status r).
    { eexists _, _. split; [reflexivity | ].
      split; [discriminate | now apply Hq]. }
    destruct (json_body r) as [[ | | | | | items] | ]; try discriminate.
    2:{ eexists _, _. split; [reflexivity | ].
        split; [discriminate | now apply Hq]. }
    cbn in Hi. destruct (truthy (dict_get items "access_token")) eqn:Ht; cbn.
    + cbn in Hi. eexists _, _. split; [reflexivity | ].
      split; [now intros _ | ].
      left. exists (dict_get items "access_token").
      split; [now split | exact Hi].
    + eexists _, _. split; [reflexivity | ].
      split; [discriminate | now apply Hq].
Qed.

(** From a quiet state [Log] returns, and the state stays quiet. *)
Lemma Log_returns env stack level package message lg :
  quiet env lg ->
  exists lg', Log env stack level package message lg = (Ok tt, lg')
    /\ quiet env lg'.
Proof.
  intros Hq. unfold Log.
  destruct (get_auth_token_returns env lg Hq) as (token & lg1 & -> & He & Hq1).
  destruct (truthy token); cbn.
  - rewrite (He eq_refl). cbn.
    destruct (log_net env (length (outbox lg1)) _) as [r | e];
      [ | now eexists].
    destruct (negb (status_code r =? 200)); now eexists.
  - now eexists.
Qed.

Lemma Log_quiet env stack level package message lg :
  quiet env lg -> quiet env (snd (Log env stack level package message lg)).
Proof.
  intros Hq.
  destruct (Log_returns env stack level package message lg Hq)
    as (lg' & -> & Hq').
  exact Hq'.
Qed.

(** The exceptions that can leave the two functions. *)
Lemma get_auth_token_outcomes env lg :
  (exists token, fst (get_auth_token env lg) = Ok token)
  \/ fst (get_auth_token env lg) = Raise AttributeError.
Proof.
  unfold get_auth_token.
  destruct (storage_truthy lg); [left; now eexists | ]. cbn.
  destruct (auth_net env (auth_posts lg)) as [r | e]; [ | left; now eexists].
  destruct (raise_for_status r); [left; now eexists | ].
  destruct (json_body r) as [[ | | | | | items] | ];
    try (now right); try (left; now eexists).
  destruct (negb _); left; now eexists.
Qed.

Lemma Log_outcomes env stack level package message lg :
  fst (Log env stack level package message lg) = Ok tt
  \/ fst (Log env stack level package message lg) = Raise AttributeError
  \/ fst (Log env stack level package message lg) = Raise UnicodeEncodeError.
Proof.
  unfold Log.
  destruct (get_auth_token_outcomes env lg) as [[token H] | H];
    destruct (get_auth_token env lg) as [o lg1]; cbn in H; subst o;
    [ | now right; left].
  destruct (negb (truthy token)); [now left | ].
  destruct (header_encodable env token); cbn; [left | now right; right].
  destruct (log_net env (length (outbox lg1)) _) as [r | e]; [ | reflexivity].
  now destruct (negb (status_code r =? 200)).
Qed.

(** C8: once a token has been obtained and cached, [get_auth_token] never
    contacts the auth endpoint again and always returns the cached token,
    over any later sequence of calls into the module; and a call posts to
    the auth endpoint if and only if no token is cached when it is made. *)
Theorem get_auth_token_cache_is_permanent env lg :
  wf lg ->
  (auth_posts (snd (get_auth_token env lg)) = S (auth_posts lg)
     <-> auth_token_storage lg = None)
  /\ (auth_posts (snd (get_auth_token env lg)) = auth_posts lg
     <-> exists t, cached lg t)
  /\ (forall t, fst (get_auth_token env lg) = Ok t -> truthy t = true ->
       cached (snd (get_auth_token env lg)) t)
  /\ (forall t, cached lg t -> forall cs,
       auth_posts (run_calls env cs lg) = auth_posts lg
       /\ get_auth_token env (run_calls env cs lg)
          = (Ok t, run_calls env cs lg)).
Proof.
  intros Hwf.
  assert (Hhit : forall t, cached lg t ->
            auth_posts (snd (get_auth_token env lg)) = auth_posts lg).
  { intros t Ht. now rewrite (get_auth_token_cached _ _ _ Ht). }
  assert (Hmiss : auth_token_storage lg = None ->
            auth_posts (snd (get_auth_token env lg)) = S (auth_posts lg)).
  { intros Hn. apply get_auth_token_uncached.
    now apply storage_truthy_wf. }
  split; [split | split; [split | split]].
  - intros Hp. destruct Hwf as [Hn | [t Ht]]; [exact Hn | ].
    rewrite (Hhit _ Ht) in Hp. lia.
  - exact Hmiss.
  - intros Hp. destruct Hwf as [Hn | Hc]; [ | exact Hc].
    rewrite (Hmiss Hn) in Hp. lia.
  - intros [t Ht]. exact (Hhit _ Ht).
  - intros t Hr Ht. destruct Hwf as [Hn | [t' Ht']].
    + revert Hr. unfold get_auth_token, storage_truthy. rewrite Hn. cbn.
      destruct (auth_net env (auth_posts lg)) as [r | e];
        [ | cbn; intros [= <-]; discriminate].
      destruct (raise_for_status r); [cbn; intros [= <-]; discriminate | ].
      destruct (json_body r) as [[ | | | | | items] | ]; cbn;
        try (intros [= <-]; discriminate); try discriminate.
      destruct (truthy (dict_get items "access_token")) eqn:Hacc; cbn;
        intros [= <-]; [now split | discriminate].
    + rewrite (get_auth_token_cached _ _ _ Ht') in *. cbn in *.
      now injection Hr as <-.
  - intros t Ht cs. split.
    + now apply (run_calls_cached env cs lg t).
    + apply get_auth_token_cached. now apply run_calls_cached.
Qed.

Lemma get_auth_token_cache_is_permanent_witness :
  auth_posts (snd (get_auth_token Examples.granting_env initial)) = 1%nat
  /\ auth_posts
       (run_calls Examples.granting_env
          [CallGetAuthToken; CallLog "backend" "info" "route" "x";
           CallGetAuthToken]
          (snd (get_auth_token Examples.granting_env initial))) = 1%nat.
Proof.
  split.
  - apply (get_auth_token_cache_is_permanent Examples.granting_env initial).
    + now left.
    + reflexivity.
  - refine (proj1 (proj2 (proj2 (proj2
      (get_auth_token_cache_is_permanent Examples.granting_env
         (snd (get_auth_token Examples.granting_env initial)) _))) (JStr "tok") _ _)).
    + right. exists (JStr "tok"). now split.
    + now split.
Defined.

(** C7: [Log] is meant never to raise to its caller, but a reply of the
    auth endpoint that passes [raise_for_status] and whose JSON body is
    not an object makes [token_data.get] raise [AttributeError], which no
    [except] clause catches: the exception leaves [Log]. *)
Theorem Log_raises_on_non_object_auth_body
    env stack level package message lg r v :
  storage_truthy lg = false ->
  auth_net env (auth_posts lg) = Replied r ->
  raise_for_status r = None ->
  json_body r = Some v ->
  (forall items, v <> JObj items) ->
  exists lg',
    Log env stack level package message lg = (Raise AttributeError, lg').
Proof.
  intros Hs Hr Hst Hb Hv. unfold Log, get_auth_token.
  rewrite Hs. cbn. rewrite Hr, Hst, Hb.
  destruct v; try (now eexists).
  now destruct (Hv items).
Qed.

Lemma Log_raises_on_non_object_auth_body_witness :
  exists lg',
    Log Examples.array_env "backend" "info" "route"
        "Health check endpoint was hit." initial
    = (Raise AttributeError, lg').
Proof.
  apply (Log_raises_on_non_object_auth_body Examples.array_env _ _ _ _ initial
           {| status_code := 200; text := "[]"; json_body := Some (JArr []) |}
           (JArr [])); try reflexivity.
  intros items; discriminate.
Defined.

End LoggerFacts.


(** ** Properties of the calendar *)

Module DatetimeFacts.
Import Datetime.

Lemma digit_value_digit n : digit_value (digit n) = Some (n mod 10).
Proof.
  unfold digit.
  pose proof (Z.mod_pos_bound n 10 ltac:(lia)) as Hb.
  rewrite <- (Z2Nat.id (n mod 10)) at 2 by lia.
  assert (Hk : (Z.to_nat (n mod 10) < 10)%nat) by lia.
  revert Hk. generalize (Z.to_nat (n mod 10)). intros k Hk.
  do 10 (destruct k as [ | k]; [reflexivity | ]). lia.
Qed.

Lemma number2_digits n :
  0 <= n < 100 -> number2 (digit (n / 10)) (digit n) = Some n.
Proof.
  intros Hn. unfold number2. rewrite !digit_value_digit. cbn.
  f_equal. Z.div_mod_to_equations. lia.
Qed.

Lemma number4_digits n :
  0 <= n < 10000 ->
  number4 (digit (n / 1000)) (digit (n / 100)) (digit (n / 10)) (digit n)
  = Some n.
Proof.
  intros Hn. unfold number4, number2. rewrite !digit_value_digit. cbn.
  f_equal. Z.div_mod_to_equations. lia.
Qed.


Lemma month_day_checked leapyear :
  forallb (month_day_check leapyear) (seq 0 365) = true.
Proof. destruct leapyear; vm_compute; reflexivity. Qed.

Lemma month_day_spec n leapyear m d :
  0 <= n < 365 ->
  month_day n leapyear = (m, d) ->
  1 <= m <= 12
  /\ 1 <= d <= (if (m =? 2) && leapyear then 29 else days_in_month m)
  /\ days_before_month m + (if (m >? 2) && leapyear then 1 else 0) + d
     = n + 1.
Proof.
  intros Hn Hmd.
  pose proof (month_day_checked leapyear) as H.
  rewrite forallb_forall in H.
  specialize (H (Z.to_nat n)).
  unfold month_day_check in H. rewrite Z2Nat.id in H by lia.
  rewrite Hmd in H.
  assert (Hin : In (Z.to_nat n) (seq 0 365)) by (apply in_seq; lia).
  specialize (H Hin).
  repeat (apply andb_prop in H as [H ?]).
  lia.
Qed.

Lemma ord2ymd_month_day ordinal :
  let n := ordinal - 1 in
  let n400 := n / 146097 in let n := n mod 146097 in
  let n100 := n / 36524 in let n := n mod 36524 in
  let n4 := n / 1461 in let n := n mod 1461 in
  let n1 := n / 365 in let n := n mod 365 in
  let year := n400 * 400 + 1 + n100 * 100 + n4 * 4 + n1 in
  ord2ymd ordinal
  = if (n1 =? 4) || (n100 =? 4) then (year - 1, 12, 31)
    else
      let '(m, d) :=
        month_day n ((n1 =? 3) && (negb (n4 =? 24) || (n100 =? 3))) in
      (year, m, d).
Proof.
  cbv zeta. unfold ord2ymd, month_day. cbv zeta.
  destruct (_ || _); [reflexivity | ].
  destruct (_ >? _); reflexivity.
Qed.

Lemma ord2ymd_spec ordinal y m d :
  1 <= ordinal <= MAXORDINAL ->
  ord2ymd ordinal = (y, m, d) ->
  1 <= y <= 9999 /\ 1 <= m <= 12 /\ 1 <= d <= year_days_in_month y m
  /\ ymd2ord y m d = ordinal.
Proof.
  unfold MAXORDINAL. intros Hord. rewrite ord2ymd_month_day. cbv zeta.
  set (n0 := ordinal - 1).
  set (n400 := n0 / 146097). set (r1 := n0 mod 146097).
  set (n100 := r1 / 36524). set (r2 := r1 mod 36524).
  set (n4 := r2 / 1461). set (r3 := r2 mod 1461).
  set (n1 := r3 / 365). set (r4 := r3 mod 365).
  assert (E1 : n0 = 146097 * n400 + r1 /\ 0 <= r1 < 146097)
    by (subst n400 r1; split; [apply Z.div_mod | apply Z.mod_pos_bound]; lia).
  assert (E2 : r1 = 36524 * n100 + r2 /\ 0 <= r2 < 36524)
    by (subst n100 r2; split; [apply Z.div_mod | apply Z.mod_pos_bound]; lia).
  assert (E3 : r2 = 1461 * n4 + r3 /\ 0 <= r3 < 1461)
    by (subst n4 r3; split; [apply Z.div_mod | apply Z.mod_pos_bound]; lia).
  assert (E4 : r3 = 365 * n1 + r4 /\ 0 <= r4 < 365)
    by (subst n1 r4; split; [apply Z.div_mod | apply Z.mod_pos_bound]; lia).
  assert (Hn0 : n0 = ordinal - 1) by reflexivity.
  clearbody n0 n400 r1 n100 r2 n4 r3 n1 r4.
  assert (B : 0 <= n400 <= 24 /\ 0 <= n100 <= 4 /\ 0 <= n4 <= 24
              /\ 0 <= n1 <= 4) by lia.
  unfold ymd2ord, year_days_in_month, year_days_before_month,
    days_before_year, is_leap.
  destruct ((n1 =? 4) || (n100 =? 4)) eqn:Hend.
  - intros [= <- <- <-].
    change (days_in_month 12) with 31. change (days_before_month 12) with 334.
    change (12 =? 2) with false. change (12 >? 2) with true.
    cbn [andb].
    apply orb_prop in Hend.
    assert (Hcase : (n1 = 4 /\ r4 = 0) \/ (n100 = 4 /\ r2 = 0 /\ n4 = 0
                                          /\ n1 = 0 /\ r4 = 0)) by lia.
    clear Hend.
    repeat match goal with
    | |- context [?a mod ?b =? 0] => destruct (Z.eqb_spec (a mod b) 0)
    end; cbn [negb andb orb];
    (split; [lia | ]; split; [lia | ]; split; [lia | ]);
    Z.div_mod_to_equations; lia.
  - apply orb_false_elim in Hend as [H1 H100].
    apply Z.eqb_neq in H1, H100.
    destruct (month_day r4 _) as [m' d'] eqn:Hmd.
    intros [= <- <- <-].
    apply month_day_spec in Hmd as (Hm & Hd & Hsum); [ | lia].
    set (Y := n400 * 400 + 1 + n100 * 100 + n4 * 4 + n1) in *.
    assert (Hleap : (Y mod 4 =? 0) && (negb (Y mod 100 =? 0) || (Y mod 400 =? 0))
                    = (n1 =? 3) && (negb (n4 =? 24) || (n100 =? 3))).
    { subst Y.
      destruct (Z.eqb_spec n1 3) as [-> | Hn1];
        destruct (Z.eqb_spec n4 24) as [-> | Hn4];
        destruct (Z.eqb_spec n100 3) as [-> | Hn100]; cbn [negb andb orb];
        repeat match goal with
        | |- context [?a mod ?b =? 0] =>
            destruct (Z.eqb_spec (a mod b) 0)
        end; cbn [negb andb orb]; try reflexivity;
        exfalso; Z.div_mod_to_equations; lia. }
    rewrite Hleap.
    split; [subst Y; lia | ]. split; [lia | ]. split; [exact Hd | ].
    subst Y.
    replace (n400 * 400 + 1 + n100 * 100 + n4 * 4 + n1 - 1)
      with (400 * n400 + 100 * n100 + 4 * n4 + n1) by lia.
    Z.div_mod_to_equations. lia.
Qed.


Lemma year_days_in_month_le y m : year_days_in_month y m <= 31.
Proof.
  unfold year_days_in_month, days_in_month.
  destruct (_ && _); [lia | ].
  generalize (Z.to_nat m). intros k.
  do 13 (destruct k as [ | k]; [cbn; lia | ]).
  cbn. destruct k; lia.
Qed.

Lemma time_fields t :
  0 <= hour t < 24 /\ 0 <= minute t < 60 /\ 0 <= second t < 60
  /\ (t / US_PER_DAY * 86400 + hour t * 3600 + minute t * 60 + second t)
     * 1000000 = t - t mod 1000000.
Proof.
  unfold hour, minute, second, US_PER_DAY.
  change (86400 * 1000000) with 86400000000.
  Z.div_mod_to_equations. lia.
Qed.

(** Reading the text of an expiry gives back the instant, to the second. *)
Lemma parse_strftime_iso_z t :
  in_range t = true ->
  parse_iso8601_utc (strftime_iso_z t) = Some (t - t mod 1000000).
Proof.
  intros Hr. unfold in_range in Hr.
  apply andb_prop in Hr as [H0%Z.leb_le H1%Z.ltb_lt].
  unfold strftime_iso_z, date_time_to.
  destruct (ymd t) as [[y m] d] eqn:Hymd. unfold ymd in Hymd.
  apply ord2ymd_spec in Hymd as (Hy & Hm & Hd & Hord).
  2:{ unfold MAXORDINAL, US_PER_DAY in *.
      change (86400 * 1000000) with 86400000000 in *.
      Z.div_mod_to_equations. lia. }
  destruct (time_fields t) as (Hh & Hmi & Hs & Hsum).
  unfold pad4, pad2, parse_iso8601_utc.
  cbn [list_ascii_of_string].
  change (forallb _ _) with true. cbv iota.
  pose proof (year_days_in_month_le y m) as Hd31.
  rewrite number4_digits by lia. cbn [mbind option_bind].
  do 5 (rewrite number2_digits by lia; cbn [mbind option_bind]).
  replace ((1 <=? y) && (1 <=? m) && (m <=? 12) && (1 <=? d)
           && (d <=? year_days_in_month y m) && (hour t <? 24)
           && (minute t <? 60) && (second t <? 60)) with true.
  2:{ symmetry. repeat (apply andb_true_intro; split); lia. }
  f_equal. rewrite Hord, <- Hsum. ring.
Qed.

End DatetimeFacts.

(** ** Properties of the handlers *)

Module MainFacts.
Import Main Vocabulary.
Import Logger(healthy, quiet).

(** *** Stepping through the monad *)

Lemma bind_Ok {A B} (m : M A) (k : A -> M B) w a w' :
  m w = (Ok a, w') -> (m ≫= k) w = k a w'.
Proof. intros H. unfold mbind, M_bind, bind. now rewrite H. Qed.

Lemma bind_unfold {A B} (m : M A) (k : A -> M B) w :
  (m ≫= k) w = match m w with
               | (Ok a, w') => k a w'
               | (Raise e, w') => (Raise e, w')
               | (Diverge, w') => (Diverge, w')
               end.
Proof. reflexivity. Qed.

Lemma bind_Ok_inv {A B} (m : M A) (k : A -> M B) w b w2 :
  (m ≫= k) w = (Ok b, w2) ->
  exists a w1, m w = (Ok a, w1) /\ k a w1 = (Ok b, w2).
Proof.
  unfold mbind, M_bind, bind.
  destruct (m w) as [[a | e | ] w1]; try discriminate. eauto.
Qed.

Lemma bind_Raise {A B} (m : M A) (k : A -> M B) w e w' :
  m w = (Raise e, w') -> (m ≫= k) w = (Raise e, w').
Proof. intros H. unfold mbind, M_bind, bind. now rewrite H. Qed.

(** Either [m] returns and the run continues with [k], or the run ends
    in the state [m] left. *)
Lemma bind_snd_cases {A B} (m : M A) (k : A -> M B) w :
  (exists a w1, m w = (Ok a, w1) /\ (m ≫= k) w = k a w1)
  \/ snd ((m ≫= k) w) = snd (m w).
Proof.
  unfold mbind, M_bind, bind.
  destruct (m w) as [[a | e | ] w1]; [left; eauto | now right ..].
Qed.

Lemma bind_kept {A B} (m : M A) (k : A -> M B) w :
  url_db (snd (m w)) = url_db w ->
  (forall a w', url_db (snd (k a w')) = url_db w') ->
  url_db (snd ((m ≫= k) w)) = url_db w.
Proof.
  intros Hm Hk.
  destruct (bind_snd_cases m k w) as [(a & w1 & Hmw & ->) | ->];
    [ | exact Hm].
  rewrite Hk. now rewrite Hmw in Hm.
Qed.

Lemma bind_keeps (P : world -> Prop) {A B} (m : M A) (k : A -> M B) w :
  P (snd (m w)) ->
  (forall a w', P w' -> P (snd (k a w'))) ->
  P (snd ((m ≫= k) w)).
Proof.
  intros Hm Hk.
  destruct (bind_snd_cases m k w) as [(a & w1 & Hmw & ->) | ->];
    [ | exact Hm].
  apply Hk. now rewrite Hmw in Hm.
Qed.

Lemma bind_lift {A B} (o : outcome A) (k : A -> M B) w :
  (lift o ≫= k) w = match o with
                    | Ok a => k a w
                    | Raise e => (Raise e, w)
                    | Diverge => (Diverge, w)
                    end.
Proof. now destruct o. Qed.

Section WithConfig.
Context (cfg : Config) (env : Env).

(** [Log] never touches the store or the entropy stream. *)
Lemma Log_frame stack level package message w o w' :
  Log env stack level package message w = (o, w') ->
  url_db w' = url_db w /\ draws w' = draws w.
Proof.
  unfold Log.
  destruct (Logger.Log env stack level package message (log_state w)).
  intros [= _ <-]. now split.
Qed.

Lemma Log_kept stack level package message w :
  url_db (snd (Log env stack level package message w)) = url_db w.
Proof.
  destruct (Log env stack level package message w) as [o w'] eqn:HL.
  now apply Log_frame in HL.
Qed.

(** From a quiet state [Log] returns and leaves a quiet state. *)
Lemma Log_runs stack level package message w :
  quiet env (log_state w) ->
  exists w', Log env stack level package message w = (Ok tt, w')
    /\ url_db w' = url_db w /\ draws w' = draws w
    /\ quiet env (log_state w').
Proof.
  intros Hq. unfold Log.
  destruct (LoggerFacts.Log_returns env stack level package message
              (log_state w) Hq) as (lg' & -> & Hq').
  eexists. repeat split. exact Hq'.
Qed.

(** [Log] returns, or raises one of the two exceptions [logger.py] lets
    through; in every case the store is as before. *)
Lemma Log_cases stack level package message w :
  exists w', url_db w' = url_db w
    /\ (Log env stack level package message w = (Ok tt, w')
        \/ exists e, log_exception e = true
             /\ Log env stack level package message w = (Raise e, w')).
Proof.
  unfold Log.
  pose proof (LoggerFacts.Log_outcomes env stack level package message
                (log_state w)) as H.
  destruct (Logger.Log env stack level package message (log_state w))
    as [o lg']. cbn in H.
  exists {| url_db := url_db w; log_state := lg'; draws := draws w |}.
  split; [reflexivity | ].
  destruct H as [-> | [-> | ->]];
    [now left | right; now exists AttributeError
    | right; now exists UnicodeEncodeError].
Qed.

(** With nothing cached, an auth reply that passes [raise_for_status]
    with a JSON body that is not an object stops [Log], and what called
    it, on [AttributeError]. *)
Lemma Log_stops stack level package message w :
  Logger.storage_truthy (log_state w) = false ->
  auth_reply_faults (auth_net env (Logger.auth_posts (log_state w))) = true ->
  exists w', Log env stack level package message w = (Raise AttributeError, w')
    /\ url_db w' = url_db w.
Proof.
  intros Hs Hf. unfold Log, Logger.Log, Logger.get_auth_token.
  rewrite Hs. cbn. unfold auth_reply_faults in Hf.
  destruct (auth_net env (Logger.auth_posts (log_state w))) as [r | e];
    [ | discriminate].
  destruct (raise_for_status r); [discriminate | ].
  destruct (json_body r) as [[ | | | | | items] | ]; try discriminate;
    now eexists.
Qed.

End WithConfig.

(** Run the next [Log] of the goal from a quiet state. *)
Ltac log_step :=
  lazymatch goal with
  | |- context [ (Log ?env ?s ?l ?p ?m ≫= ?k) ?w ] =>
      let w' := fresh "w" in
      let HL := fresh "HL" in
      let Hdb := fresh "Hdb" in
      let Hdr := fresh "Hdr" in
      let Hq := fresh "Hq" in
      destruct (Log_runs env s l p m w ltac:(assumption))
        as (w' & HL & Hdb & Hdr & Hq);
      rewrite (bind_Ok _ _ _ _ _ HL); clear HL
  end.

(** *** The [Location] header *)

(** [quote] leaves a text made of kept bytes as it is. *)
Lemma quote_kept safe s :
  forallb (Urllib.kept safe) (list_ascii_of_string s) = true ->
  Urllib.quote safe s = s.
Proof.
  induction s as [ | c s IH]; cbn; [reflexivity | ].
  intros H. apply andb_prop in H as [Hc Hs]. rewrite Hc.
  now rewrite (IH Hs).
Qed.

Section Redirect.
Context (env : Env).

(** From a quiet state, what an access answers and leaves. *)
Lemma redirect_runs code now w :
  quiet env (log_state w) ->
  exists w',
    redirect_to_long_url env code now w
    = (redirect_answer (url_db w) code now, w')
    /\ url_db w' = redirect_store (url_db w) code now
    /\ draws w' = draws w
    /\ quiet env (log_state w').
Proof.
  intros Hq0. unfold redirect_to_long_url, redirect_answer, redirect_store.
  log_step.
  rewrite (bind_Ok get_db _ w0 (url_db w0) w0 eq_refl).
  rewrite Hdb.
  destruct (url_db w !! code) as [e | ].
  - destruct (now >? expiry_utc e).
    + log_step.
      eexists. split; [reflexivity | ]. cbn. repeat split; congruence.
    + log_step.
      eexists. split; [reflexivity | ]. repeat split; congruence.
  - log_step.
    eexists. split; [reflexivity | ]. repeat split; congruence.
Qed.

(** In every environment: what an access does, unless one of its [Log]
    calls raised, in which case the store is as before. *)
Lemma redirect_outcomes code now w :
  exists w',
    (redirect_to_long_url env code now w
     = (redirect_answer (url_db w) code now, w')
     /\ url_db w' = redirect_store (url_db w) code now)
    \/ (exists e, log_exception e = true
          /\ redirect_to_long_url env code now w = (Raise e, w'))
       /\ url_db w' = url_db w.
Proof.
  unfold redirect_to_long_url, redirect_answer, redirect_store.
  destruct (Log_cases env "backend" "info" "handler"
              ("Redirect request received for shortcode: '"
               +:+ code +:+ "'.") w) as (w0 & Hdb0 & [HL0 | (x & Hx & HL0)]);
    rewrite bind_unfold, HL0; [ | exists w0; right; eauto].
  rewrite (bind_Ok get_db _ w0 (url_db w0) w0 eq_refl).
  rewrite Hdb0.
  destruct (url_db w !! code) as [e | ].
  - destruct (now >? expiry_utc e).
    + destruct (Log_cases env "backend" "warn" "handler"
                  ("Shortcode '" +:+ code
                   +:+ "' has expired. Removing from DB.") w0)
        as (w1 & Hdb1 & [HL1 | (x & Hx & HL1)]); rewrite bind_unfold, HL1.
      * eexists. left. split; [reflexivity | ]. cbn. congruence.
      * exists w1. right. split; [eauto | congruence].
    + destruct (Log_cases env "backend" "info" "handler"
                  ("Successfully redirecting '" +:+ code
                   +:+ "' to its destination.") w0)
        as (w1 & Hdb1 & [HL1 | (x & Hx & HL1)]); rewrite bind_unfold, HL1.
      * exists w1. left. split; [reflexivity | congruence].
      * exists w1. right. split; [eauto | congruence].
  - destruct (Log_cases env "backend" "error" "handler"
                ("Shortcode '" +:+ code +:+ "' not found in database.") w0)
      as (w1 & Hdb1 & [HL1 | (x & Hx & HL1)]); rewrite bind_unfold, HL1.
    + exists w1. left. split; [reflexivity | congruence].
    + exists w1. right. split; [eauto | congruence].
Qed.

(** The first [Log] of an access that meets a faulting auth reply ends
    the access. *)
Lemma redirect_stops code now w :
  Logger.storage_truthy (log_state w) = false ->
  auth_reply_faults (auth_net env (Logger.auth_posts (log_state w))) = true ->
  exists w', redirect_to_long_url env code now w = (Raise AttributeError, w')
    /\ url_db w' = url_db w.
Proof.
  intros Hs Hf. unfold redirect_to_long_url.
  destruct (Log_stops env "backend" "info" "handler"
              ("Redirect request received for shortcode: '"
               +:+ code +:+ "'.") w Hs Hf) as (w' & HL & Hdb).
  rewrite (bind_Raise _ _ _ _ _ HL). now exists w'.
Qed.

(** C4: a redirect of a shortcode that is not in the store is meant to
    fail with 404 whatever else holds.  It does not when the [Log] call
    that opens the handler meets, with no token cached, an auth reply that
    passes [raise_for_status] with a JSON body that is not an object: the
    handler stops on [AttributeError] before it looks the shortcode up,
    and the client is sent 500. *)
Theorem redirect_unknown_stops_on_auth_fault code now w :
  url_db w !! code = None ->
  Logger.storage_truthy (log_state w) = false ->
  auth_reply_faults (auth_net env (Logger.auth_posts (log_state w))) = true ->
  exists w',
    redirect_to_long_url env code now w = (Raise AttributeError, w')
    /\ http_status 307 (fst (redirect_to_long_url env code now w)) = Some 500
    /\ fst (redirect_to_long_url env code now w)
       <> Raise (HTTPException 404 "Short URL not found.")
    /\ url_db w' = url_db w.
Proof.
  intros _ Hs Hf.
  destruct (redirect_stops code now w Hs Hf) as (w' & Hr & Hdb).
  exists w'. rewrite Hr. cbn. repeat split; [discriminate | exact Hdb].
Qed.

(** C10: from a quiet state, an access at a time exactly equal to the
    stored expiry still redirects rather than answering 410: the
    comparison [now > expiry] is strict, so the link is valid through the
    expiry instant.  The redirect is a 307 whose [Location] is the stored
    URL percent-quoted, which is the stored URL itself when all its bytes
    are kept by the quoting; the entry stays in the store. *)
Theorem redirect_at_expiry_instant code w e :
  quiet env (log_state w) ->
  url_db w !! code = Some e ->
  exists w',
    redirect_to_long_url env code (expiry_utc e) w
    = (Ok {| redirect_status := 307;
             location := Urllib.quote REDIRECT_SAFE (long_url e) |}, w')
    /\ (forallb (Urllib.kept REDIRECT_SAFE)
                (list_ascii_of_string (long_url e)) = true ->
        redirect_to_long_url env code (expiry_utc e) w
        = (Ok {| redirect_status := 307; location := long_url e |}, w'))
    /\ url_db w' = url_db w
    /\ quiet env (log_state w').
Proof.
  intros Hq Hsome.
  destruct (redirect_runs code (expiry_utc e) w Hq)
    as (w' & Hr & Hdb & _ & Hq').
  unfold redirect_answer, redirect_store in *. rewrite Hsome in *.
  replace (expiry_utc e >? expiry_utc e) with false in * by lia.
  exists w'. split; [exact Hr | ]. split; [ | now split].
  intros Hk. rewrite Hr. unfold redirect_response.
  now rewrite (quote_kept _ _ Hk).
Qed.

Lemma redirects_absent code times : forall w,
  quiet env (log_state w) ->
  url_db w !! code = None ->
  Forall (fun o => o = Raise (HTTPException 404 "Short URL not found."))
         (fst (redirects env code times w)).
Proof.
  induction times as [ | now times IH]; intros w Hq Hnone; cbn.
  - constructor.
  - destruct (redirect_runs code now w Hq) as (w1 & -> & Hdb & _ & Hq1).
    unfold redirect_answer, redirect_store in *. rewrite Hnone in *.
    specialize (IH w1 Hq1). rewrite Hdb in IH. specialize (IH Hnone).
    destruct (redirects env code times w1) as [os w2]. cbn in *.
    now constructor.
Qed.

(** C2: the first access to a stored shortcode after its expiry is meant
    to fail with 410 and evict the entry.  It does not when the [Log] call
    that opens the handler meets, with no token cached, an auth reply that
    passes [raise_for_status] with a JSON body that is not an object: the
    handler stops on [AttributeError], the client is sent 500, and the
    expired entry is still in the store. *)
Theorem redirect_expired_stops_on_auth_fault code now w e :
  url_db w !! code = Some e ->
  now > expiry_utc e ->
  Logger.storage_truthy (log_state w) = false ->
  auth_reply_faults (auth_net env (Logger.auth_posts (log_state w))) = true ->
  exists w',
    redirect_to_long_url env code now w = (Raise AttributeError, w')
    /\ http_status 307 (fst (redirect_to_long_url env code now w)) = Some 500
    /\ fst (redirect_to_long_url env code now w)
       <> Raise (HTTPException 410 "This Short URL has expired.")
    /\ url_db w' !! code = Some e.
Proof.
  intros Hsome _ Hs Hf.
  destruct (redirect_stops code now w Hs Hf) as (w' & Hr & Hdb).
  exists w'. rewrite Hr. cbn. repeat split; [discriminate | ].
  now rewrite Hdb.
Qed.

End Redirect.

(** *** The shortcode generator *)

Section Generator.
Context (cfg : Config) (env : Env).

Lemma join_choices_length n : forall i,
  String.length (join_choices env n i) = n.
Proof. induction n as [ | n IH]; intros i; cbn; [ | rewrite IH]; reflexivity. Qed.

Lemma secrets_choice_alnum i : is_alnum (secrets_choice env i) = true.
Proof.
  unfold secrets_choice.
  assert (Hall : forallb is_alnum (list_ascii_of_string chars) = true)
    by reflexivity.
  rewrite forallb_forall in Hall. apply Hall, nth_In.
  change (length (list_ascii_of_string chars)) with 62%nat.
  change (String.length chars) with 62%nat.
  apply Nat.mod_upper_bound. discriminate.
Qed.

Lemma join_choices_alnum n : forall i,
  forallb is_alnum (list_ascii_of_string (join_choices env n i)) = true.
Proof.
  induction n as [ | n IH]; intros i; cbn [join_choices list_ascii_of_string forallb].
  - reflexivity.
  - now rewrite secrets_choice_alnum, IH.
Qed.

(** What the loop returns was drawn from the alphabet and is not a key. *)
Lemma generate_loop_sound fuel : forall w code w1,
  generate_loop cfg env fuel w = (Ok code, w1) ->
  (exists i, code = join_choices env (SHORTCODE_LENGTH cfg) i)
  /\ url_db w !! code = None
  /\ url_db w1 = url_db w.
Proof.
  induction fuel as [ | fuel IH]; intros w code w1 H; [discriminate | ].
  cbn [generate_loop] in H.
  rewrite (bind_Ok (random_shortcode cfg env) _ w _ _ eq_refl) in H.
  rewrite (bind_Ok get_db _ _ _ _ eq_refl) in H.
  cbn [url_db] in H.
  destruct (url_db w !! join_choices env (SHORTCODE_LENGTH cfg) (draws w))
    as [taken | ] eqn:Hlook.
  - destruct (IH _ _ _ H) as (Hi & Hnone & Hdb). now repeat split.
  - apply bind_Ok_inv in H as (u & wa & HL & Hret).
    apply Log_frame in HL as [Hdb _]. injection Hret as <- <-.
    split; [now eexists | ]. split; [exact Hlook | exact Hdb].
Qed.

(** The loop returns once an attempt within the fuel draws a free code. *)
Lemma generate_loop_returns fuel : forall w,
  quiet env (log_state w) ->
  fresh_within cfg env fuel w ->
  exists code w1, generate_loop cfg env fuel w = (Ok code, w1)
    /\ quiet env (log_state w1).
Proof.
  induction fuel as [ | fuel IH]; intros w Hh (k & Hk & Hfree); [lia | ].
  cbn [generate_loop].
  rewrite (bind_Ok (random_shortcode cfg env) _ w _ _ eq_refl).
  rewrite (bind_Ok get_db _ _ _ _ eq_refl).
  cbn [url_db].
  destruct (url_db w !! join_choices env (SHORTCODE_LENGTH cfg) (draws w))
    as [taken | ] eqn:Hlook.
  - apply IH; [exact Hh | ].
    destruct k as [ | k].
    + unfold candidate in Hfree. rewrite Nat.add_0_r in Hfree. congruence.
    + exists k. split; [lia | ]. unfold candidate in *. cbn [url_db draws].
      rewrite <- Hfree. do 2 f_equal. lia.
  - log_step. now eexists _, _.
Qed.

Lemma generate_unique_shortcode_sound fuel w code w1 :
  generate_unique_shortcode cfg env fuel w = (Ok code, w1) ->
  (exists i, code = join_choices env (SHORTCODE_LENGTH cfg) i)
  /\ url_db w !! code = None
  /\ url_db w1 = url_db w.
Proof.
  intros H. unfold generate_unique_shortcode in H.
  apply bind_Ok_inv in H as (u & wa & HL & Hloop).
  apply Log_frame in HL as [Hdb Hdr].
  apply generate_loop_sound in Hloop as (Hi & Hnone & Hdb1).
  repeat split; congruence.
Qed.

Lemma generate_unique_shortcode_returns fuel w :
  quiet env (log_state w) ->
  fresh_within cfg env fuel w ->
  exists code w1, generate_unique_shortcode cfg env fuel w = (Ok code, w1)
    /\ quiet env (log_state w1).
Proof.
  intros Hh (k & Hk & Hfree). unfold generate_unique_shortcode.
  log_step. apply generate_loop_returns; [exact Hq | ].
  exists k. split; [exact Hk | ]. unfold candidate in *. congruence.
Qed.

(** C5: every shortcode the generator returns has exactly the configured
    length, consists of ASCII letters and digits only, and is not a key of
    the store when it is generated; and, logging being quiet, the
    generator does return one as soon as one of its attempts draws a free
    code. *)
Theorem generate_unique_shortcode_fresh_alnum fuel w :
  (forall code w1,
     generate_unique_shortcode cfg env fuel w = (Ok code, w1) ->
     String.length code = SHORTCODE_LENGTH cfg
     /\ forallb is_alnum (list_ascii_of_string code) = true
     /\ url_db w !! code = None
     /\ url_db w1 = url_db w)
  /\ (quiet env (log_state w) -> fresh_within cfg env fuel w ->
      exists code w1,
        generate_unique_shortcode cfg env fuel w = (Ok code, w1)).
Proof.
  split.
  - intros code w1 H.
    apply generate_unique_shortcode_sound in H as ([i ->] & Hnone & Hdb).
    rewrite join_choices_length, join_choices_alnum. now repeat split.
  - intros Hq Hf.
    destruct (generate_unique_shortcode_returns fuel w Hq Hf)
      as (code & w1 & H & _).
    now exists code, w1.
Qed.

End Generator.

Lemma create_short_url_split cfg env request_data now fuel :
  create_short_url cfg env request_data now fuel
  = (Log env "backend" "info" "handler"
         ("Received request to shorten URL: " +:+ url request_data);;
     code ← settle_shortcode cfg env request_data fuel;
     finish_create cfg env request_data now code).
Proof. reflexivity. Qed.

(** *** What the handlers keep of the logger, whatever their outcome *)

Section Keeps.
Context (cfg : Config) (env : Env).
(** A property of the logger that every [Log] call keeps. *)
Context (P : Logger.logger -> Prop).
Hypothesis Log_P : forall stack level package message lg,
  P lg -> P (snd (Logger.Log env stack level package message lg)).

Lemma Log_keeps stack level package message w :
  P (log_state w) ->
  P (log_state (snd (Log env stack level package message w))).
Proof.
  intros H. unfold Log.
  pose proof (Log_P stack level package message (log_state w) H) as H'.
  destruct (Logger.Log env stack level package message (log_state w)).
  exact H'.
Qed.

Lemma generate_loop_keeps fuel : forall w,
  P (log_state w) -> P (log_state (snd (generate_loop cfg env fuel w))).
Proof.
  induction fuel as [ | fuel IH]; intros w H; [exact H | ].
  cbn [generate_loop].
  apply (bind_keeps (fun w => P (log_state w)));
    [exact H | intros code w1 H1].
  apply (bind_keeps (fun w => P (log_state w)));
    [exact H1 | intros db w2 H2].
  destruct (db !! code); [now apply IH | ].
  apply (bind_keeps (fun w => P (log_state w)));
    [now apply Log_keeps | intros _ w3 H3; exact H3].
Qed.

Lemma generate_unique_shortcode_keeps fuel w :
  P (log_state w) ->
  P (log_state (snd (generate_unique_shortcode cfg env fuel w))).
Proof.
  intros H. unfold generate_unique_shortcode.
  apply (bind_keeps (fun w => P (log_state w)));
    [now apply Log_keeps | intros _ w1 H1].
  now apply generate_loop_keeps.
Qed.

Lemma settle_shortcode_keeps request_data fuel w :
  P (log_state w) ->
  P (log_state (snd (settle_shortcode cfg env request_data fuel w))).
Proof.
  intros H. unfold settle_shortcode.
  destruct (shortcode request_data) as [[ | c s] | ].
  - apply (bind_keeps (fun w => P (log_state w)));
      [now apply Log_keeps | intros _ w1 H1].
    now apply generate_unique_shortcode_keeps.
  - apply (bind_keeps (fun w => P (log_state w)));
      [now apply Log_keeps | intros _ w1 H1].
    apply (bind_keeps (fun w => P (log_state w)));
      [exact H1 | intros db w2 H2].
    destruct (db !! String c s); [ | exact H2].
    apply (bind_keeps (fun w => P (log_state w)));
      [now apply Log_keeps | intros _ w3 H3].
    now apply generate_unique_shortcode_keeps.
  - apply (bind_keeps (fun w => P (log_state w)));
      [now apply Log_keeps | intros _ w1 H1].
    now apply generate_unique_shortcode_keeps.
Qed.

Lemma finish_create_keeps request_data now code w :
  P (log_state w) ->
  P (log_state (snd (finish_create cfg env request_data now code w))).
Proof.
  intros H. unfold finish_create.
  apply (bind_keeps (fun w => P (log_state w)));
    [now destruct (Datetime.timedelta_minutes _) | intros delta w1 H1].
  apply (bind_keeps (fun w => P (log_state w)));
    [now destruct (Datetime.add _ _) | intros exp w2 H2].
  apply (bind_keeps (fun w => P (log_state w)));
    [now apply Log_keeps | intros _ w3 H3].
  apply (bind_keeps (fun w => P (log_state w)));
    [exact H3 | intros _ w4 H4].
  apply (bind_keeps (fun w => P (log_state w)));
    [now apply Log_keeps | intros _ w5 H5].
  exact H5.
Qed.

Lemma create_short_url_keeps request_data now fuel w :
  P (log_state w) ->
  P (log_state (snd (create_short_url cfg env request_data now fuel w))).
Proof.
  intros H. rewrite create_short_url_split.
  apply (bind_keeps (fun w => P (log_state w)));
    [now apply Log_keeps | intros _ w0 H0].
  apply (bind_keeps (fun w => P (log_state w)));
    [now apply settle_shortcode_keeps | intros code wa Ha].
  now apply finish_create_keeps.
Qed.

Lemma redirect_to_long_url_keeps code now w :
  P (log_state w) ->
  P (log_state (snd (redirect_to_long_url env code now w))).
Proof.
  intros H. unfold redirect_to_long_url.
  apply (bind_keeps (fun w => P (log_state w)));
    [now apply Log_keeps | intros _ w0 H0].
  apply (bind_keeps (fun w => P (log_state w)));
    [exact H0 | intros db w1 H1].
  destruct (db !! code) as [url_data | ].
  - destruct (now >? expiry_utc url_data).
    + apply (bind_keeps (fun w => P (log_state w)));
        [now apply Log_keeps | intros _ w2 H2].
      apply (bind_keeps (fun w => P (log_state w)));
        [exact H2 | intros _ w3 H3]. exact H3.
    + apply (bind_keeps (fun w => P (log_state w)));
        [now apply Log_keeps | intros _ w2 H2].
      exact H2.
  - apply (bind_keeps (fun w => P (log_state w)));
      [now apply Log_keeps | intros _ w2 H2].
    exact H2.
Qed.

Lemma health_check_keeps w :
  P (log_state w) -> P (log_state (snd (health_check env w))).
Proof.
  intros H. unfold health_check.
  apply (bind_keeps (fun w => P (log_state w)));
    [now apply Log_keeps | intros _ w0 H0].
  exact H0.
Qed.

Lemma handle_keeps r w :
  P (log_state w) -> P (log_state (handle cfg env r w)).
Proof.
  intros H. destruct r as [request_data now fuel | code now | ];
    cbn [handle].
  - now apply create_short_url_keeps.
  - now apply redirect_to_long_url_keeps.
  - now apply health_check_keeps.
Qed.

Lemma handle_all_keeps rs : forall w,
  P (log_state w) -> P (log_state (handle_all cfg env rs w)).
Proof.
  induction rs as [ | r rs IH]; intros w H; [exact H | ].
  change (handle_all cfg env (r :: rs) w)
    with (handle_all cfg env rs (handle cfg env r w)).
  now apply IH, handle_keeps.
Qed.

End Keeps.

(** *** Short links *)

Lemma has_slash_app base code :
  has_slash (base +:+ String "/" code) = true.
Proof.
  induction base as [ | c base IH].
  - reflexivity.
  - change (Ascii.eqb c "/" || has_slash (base +:+ String "/" code) = true).
    rewrite IH. apply orb_true_r.
Qed.

Lemma last_segment_link base code :
  has_slash code = false ->
  last_segment (base +:+ "/" +:+ code) = code.
Proof.
  intros Hcode. change ("/" +:+ code) with (String "/" code).
  induction base as [ | c base IH].
  - change (last_segment (String "/" code) = code). cbn. now rewrite Hcode.
  - change ((if has_slash (base +:+ String "/" code)
             then last_segment (base +:+ String "/" code)
             else if Ascii.eqb c "/" then base +:+ String "/" code
                  else String c (base +:+ String "/" code)) = code).
    now rewrite has_slash_app.
Qed.

Lemma no_slash_of_forallb (P : ascii -> bool) s :
  P "/"%char = false ->
  forallb P (list_ascii_of_string s) = true -> has_slash s = false.
Proof.
  intros HP. induction s as [ | c s IH]; cbn; [reflexivity | ].
  intros [Hc Hs]%andb_prop. rewrite (IH Hs), orb_false_r.
  destruct (Ascii.eqb_spec c "/"); [congruence | reflexivity].
Qed.

(** *** The create handler *)

Section Create.
Context (cfg : Config) (env : Env) (parse_http_url : string -> option string).

Lemma timedelta_minutes_Ok v d :
  Datetime.timedelta_minutes v = Ok d -> d = v * Datetime.US_PER_MINUTE.
Proof.
  unfold Datetime.timedelta_minutes.
  destruct (_ >? _); [discriminate | now intros [= <-]].
Qed.

Lemma add_Ok t d r :
  Datetime.add t d = Ok r -> r = t + d /\ Datetime.in_range r = true.
Proof.
  unfold Datetime.add. destruct (Datetime.in_range (t + d)) eqn:Hr;
    [ | discriminate].
  now intros [= <-].
Qed.

(** The expiry is computed when both ends are datetimes. *)
Lemma expiry_computes now v :
  Datetime.in_range now = true ->
  Datetime.in_range (now + v * Datetime.US_PER_MINUTE) = true ->
  Datetime.timedelta_minutes v = Ok (v * Datetime.US_PER_MINUTE)
  /\ Datetime.add now (v * Datetime.US_PER_MINUTE)
     = Ok (now + v * Datetime.US_PER_MINUTE).
Proof.
  intros Hnow Hexp. split.
  - unfold Datetime.timedelta_minutes.
    unfold Datetime.in_range, Datetime.MAXORDINAL, Datetime.US_PER_DAY,
      Datetime.US_PER_MINUTE, Datetime.MAX_DELTA_DAYS in *.
    apply andb_prop in Hnow as [Hn0%Z.leb_le Hn1%Z.ltb_lt].
    apply andb_prop in Hexp as [He0%Z.leb_le He1%Z.ltb_lt].
    change (86400 * 1000000) with 86400000000 in *.
    change (60 * 1000000) with 60000000 in *.
    replace (Z.abs _ >? _) with false; [reflexivity | ].
    symmetry. rewrite Z.gtb_ltb. apply Z.ltb_ge.
    assert (-3652059 <= (v * 60000000) / 86400000000 <= 3652059).
    { split.
      - apply Z.div_le_lower_bound; lia.
      - apply Z.lt_succ_r, Z.div_lt_upper_bound; lia. }
    lia.
  - unfold Datetime.add. now rewrite Hexp.
Qed.

Lemma expiry_of_in_range now v :
  Datetime.in_range now = true ->
  Datetime.in_range (now + v * Datetime.US_PER_MINUTE) = true ->
  expiry_of now v = Ok (now + v * Datetime.US_PER_MINUTE).
Proof.
  intros Hnow Hexp. unfold expiry_of.
  destruct (expiry_computes now v Hnow Hexp) as [-> ->]. reflexivity.
Qed.

Lemma expiry_of_overflow now v :
  Datetime.in_range (now + v * Datetime.US_PER_MINUTE) = false ->
  expiry_of now v = Raise OverflowError.
Proof.
  intros Hexp. unfold expiry_of, Datetime.timedelta_minutes.
  destruct (_ >? _); [reflexivity | ].
  unfold Datetime.add. now rewrite Hexp.
Qed.

Lemma expiry_of_Ok now v exp :
  expiry_of now v = Ok exp ->
  exp = now + v * Datetime.US_PER_MINUTE /\ Datetime.in_range exp = true.
Proof.
  unfold expiry_of.
  destruct (Datetime.timedelta_minutes v) as [d | e | ] eqn:Hd;
    try discriminate.
  apply timedelta_minutes_Ok in Hd as ->. apply add_Ok.
Qed.

(** What a validated request retains of the body it was built from. *)
Lemma validate_Some raw rd :
  validate cfg parse_http_url raw = Some rd ->
  parse_http_url (raw_url raw) = Some (url rd)
  /\ validity rd = default (DEFAULT_VALIDITY_MINUTES cfg) (raw_validity raw)
  /\ (forall v, raw_validity raw = Some v -> v > 0)
  /\ shortcode rd = raw_shortcode raw
  /\ (forall s, shortcode rd = Some s -> shortcode_field_ok s = true).
Proof.
  unfold validate. destruct (parse_http_url (raw_url raw)) as [u | ];
    [ | discriminate].
  destruct (raw_validity raw) as [v | ]; cbn.
  - destruct (v >? 0) eqn:Hv; [ | discriminate]. cbn.
    destruct (raw_shortcode raw) as [s | ].
    + destruct (shortcode_field_ok s) eqn:Hs; [ | discriminate].
      intros [= <-]. cbn. repeat split; try congruence.
      intros v' [= <-]. lia.
    + intros [= <-]. cbn. repeat split; try congruence.
      intros v' [= <-]. lia.
  - destruct (raw_shortcode raw) as [s | ].
    + destruct (shortcode_field_ok s) eqn:Hs; [ | discriminate].
      intros [= <-]. cbn. repeat split; congruence.
    + intros [= <-]. cbn. repeat split; congruence.
Qed.

Lemma shortcode_field_ok_facts s :
  shortcode_field_ok s = true -> s <> EmptyString /\ has_slash s = false.
Proof.
  unfold shortcode_field_ok. intros [[Hmin _]%andb_prop Hpat]%andb_prop.
  split.
  - intros ->. discriminate.
  - now apply (no_slash_of_forallb pattern_char).
Qed.

Lemma create_short_url_unfold request_data now fuel :
  create_short_url cfg env request_data now fuel
  = (Log env "backend" "info" "handler"
         ("Received request to shorten URL: " +:+ url request_data);;
     code ← settle_shortcode cfg env request_data fuel;
     delta ← lift (Datetime.timedelta_minutes (validity request_data));
     expiry_datetime_utc ← lift (Datetime.add now delta);
     Log env "backend" "debug" "service"
         ("Calculated expiry for '" +:+ code +:+ "': "
          +:+ Datetime.isoformat expiry_datetime_utc);;
     db_insert code {| long_url := url request_data;
                       expiry_utc := expiry_datetime_utc |};;
     Log env "backend" "info" "db"
         ("Successfully stored mapping for shortcode '" +:+ code +:+ "'.");;
     ret {| shortlink := BASE_SHORT_URL cfg +:+ "/" +:+ code;
            expiry := Datetime.strftime_iso_z expiry_datetime_utc |}).
Proof. reflexivity. Qed.

(** The shortcode settled on is not a key of the store. *)
Lemma settle_shortcode_sound request_data fuel w code wa :
  settle_shortcode cfg env request_data fuel w = (Ok code, wa) ->
  url_db wa = url_db w /\ url_db w !! code = None
  /\ allocated cfg env request_data w code.
Proof.
  intros Halloc. unfold settle_shortcode in Halloc. unfold allocated.
  destruct (shortcode request_data) as [[ | c s] | ].
  - apply bind_Ok_inv in Halloc as (u & wb & HL & Hg).
    apply Log_frame in HL as [Hdb _].
    apply generate_unique_shortcode_sound in Hg as (Hi & Hnone & Hdbg).
    split; [congruence | ]. split; [congruence | ].
    right. split; [exact Hi | ]. now intros c [= <-].
  - apply bind_Ok_inv in Halloc as (u & wb & HL & Hg).
    apply Log_frame in HL as [Hdb _].
    rewrite (bind_Ok get_db _ wb (url_db wb) wb eq_refl) in Hg.
    destruct (url_db wb !! String c s) as [taken | ] eqn:Hlook.
    + apply bind_Ok_inv in Hg as (u' & wc & HL' & Hg).
      apply Log_frame in HL' as [Hdb' _].
      apply generate_unique_shortcode_sound in Hg as (Hi & Hnone & Hdbg).
      split; [congruence | ]. split; [congruence | ].
      right. split; [exact Hi | ]. intros c' [= <-] _.
      exists taken. congruence.
    + injection Hg as <- <-.
      split; [congruence | ]. split; [congruence | ].
      left. now split.
  - apply bind_Ok_inv in Halloc as (u & wb & HL & Hg).
    apply Log_frame in HL as [Hdb _].
    apply generate_unique_shortcode_sound in Hg as (Hi & Hnone & Hdbg).
    split; [congruence | ]. split; [congruence | ].
    right. split; [exact Hi | ]. discriminate.
Qed.

Lemma settle_shortcode_returns request_data fuel w :
  quiet env (log_state w) ->
  can_allocate cfg env request_data fuel w ->
  exists code wa, settle_shortcode cfg env request_data fuel w = (Ok code, wa)
    /\ quiet env (log_state wa).
Proof.
  intros Hh Hcan. unfold settle_shortcode.
  assert (Hfresh0 : fresh_within cfg env fuel w ->
            forall w', url_db w' = url_db w -> draws w' = draws w ->
            fresh_within cfg env fuel w').
  { intros (k & Hk & Hfree) w' Hdb' Hdr'. exists k. split; [exact Hk | ].
    unfold candidate in *. congruence. }
  destruct (shortcode request_data) as [[ | c s] | ] eqn:Hsc.
  - destruct Hcan as [(c & Heq & Hne & _) | Hf]; [congruence | ].
    log_step. apply generate_unique_shortcode_returns; [exact Hq | ].
    apply (Hfresh0 Hf); congruence.
  - log_step.
    rewrite (bind_Ok get_db _ w0 (url_db w0) w0 eq_refl).
    destruct (url_db w0 !! String c s) as [taken | ] eqn:Hlook.
    + destruct Hcan as [(c' & Heq & _ & Hfree) | Hf];
        [rewrite Hsc in Heq; injection Heq as <-; congruence | ].
      log_step. apply generate_unique_shortcode_returns; [exact Hq0 | ].
      apply (Hfresh0 Hf); congruence.
    + now eexists _, _.
  - destruct Hcan as [(c & Heq & _) | Hf]; [congruence | ].
    log_step. apply generate_unique_shortcode_returns; [exact Hq | ].
    apply (Hfresh0 Hf); congruence.
Qed.

Lemma settle_custom_free request_data fuel c w :
  quiet env (log_state w) ->
  shortcode request_data = Some c ->
  c <> EmptyString ->
  url_db w !! c = None ->
  exists wa,
    settle_shortcode cfg env request_data fuel w = (Ok c, wa)
    /\ url_db wa = url_db w /\ draws wa = draws w
    /\ quiet env (log_state wa).
Proof.
  intros Hq Hsc Hne Hfree. unfold settle_shortcode. rewrite Hsc.
  destruct c as [ | a c]; [congruence | ].
  log_step.
  rewrite (bind_Ok get_db _ w0 (url_db w0) w0 eq_refl).
  rewrite Hdb, Hfree. now exists w0.
Qed.

(** Once the code is settled and logging is quiet, the rest of the
    handler is decided by the expiry computation alone. *)
Lemma finish_create_runs request_data now code wa :
  quiet env (log_state wa) ->
  exists w1,
    finish_create cfg env request_data now code wa
    = (match expiry_of now (validity request_data) with
       | Ok exp =>
           Ok {| shortlink := BASE_SHORT_URL cfg +:+ "/" +:+ code;
                 expiry := Datetime.strftime_iso_z exp |}
       | Raise e => Raise e
       | Diverge => Diverge
       end, w1)
    /\ url_db w1
       = match expiry_of now (validity request_data) with
         | Ok exp => <[code := {| long_url := url request_data;
                                  expiry_utc := exp |}]> (url_db wa)
         | _ => url_db wa
         end
    /\ draws w1 = draws wa
    /\ quiet env (log_state w1).
Proof.
  intros Hq. unfold finish_create, expiry_of.
  rewrite bind_lift.
  destruct (Datetime.timedelta_minutes (validity request_data))
    as [delta | e | ]; [ | now eexists ..].
  rewrite bind_lift.
  destruct (Datetime.add now delta) as [exp | e | ]; [ | now eexists ..].
  log_step.
  rewrite (bind_Ok (db_insert _ _) _ _ _ _ eq_refl).
  log_step.
  eexists. split; [reflexivity | ]. cbn in *. repeat split; congruence.
Qed.

Lemma create_custom_runs request_data c now fuel w :
  quiet env (log_state w) ->
  shortcode request_data = Some c ->
  c <> EmptyString ->
  url_db w !! c = None ->
  Datetime.in_range now = true ->
  Datetime.in_range
    (now + validity request_data * Datetime.US_PER_MINUTE) = true ->
  exists w1,
    create_short_url cfg env request_data now fuel w
    = (Ok {| shortlink := BASE_SHORT_URL cfg +:+ "/" +:+ c;
             expiry := Datetime.strftime_iso_z
                         (now + validity request_data
                                * Datetime.US_PER_MINUTE) |}, w1)
    /\ url_db w1
       = <[c := {| long_url := url request_data;
                   expiry_utc := now + validity request_data
                                       * Datetime.US_PER_MINUTE |}]> (url_db w)
    /\ draws w1 = draws w
    /\ quiet env (log_state w1).
Proof.
  intros Hq Hsc Hne Hfree Hnow Hexp. rewrite create_short_url_split.
  log_step.
  destruct (settle_custom_free request_data fuel c w0 Hq0 Hsc Hne)
    as (wa & Ha & Hdba & Hdra & Hqa); [congruence | ].
  rewrite (bind_Ok _ _ _ _ _ Ha).
  destruct (finish_create_runs request_data now c wa Hqa)
    as (w1 & -> & Hdb1 & Hdr1 & Hq1).
  rewrite (expiry_of_in_range _ _ Hnow Hexp) in *.
  exists w1. split; [reflexivity | ].
  split; [congruence | ]. split; [congruence | exact Hq1].
Qed.

(** A create that returns has inserted, under a key that was absent, the
    entry it reports. *)
Lemma create_short_url_sound request_data now fuel w resp w1 :
  create_short_url cfg env request_data now fuel w = (Ok resp, w1) ->
  exists code,
    resp = {| shortlink := BASE_SHORT_URL cfg +:+ "/" +:+ code;
              expiry := Datetime.strftime_iso_z
                          (now + validity request_data * Datetime.US_PER_MINUTE) |}
    /\ url_db w !! code = None
    /\ url_db w1
       = <[code := {| long_url := url request_data;
                      expiry_utc := now + validity request_data
                                          * Datetime.US_PER_MINUTE |}]> (url_db w)
    /\ Datetime.in_range
         (now + validity request_data * Datetime.US_PER_MINUTE) = true
    /\ allocated cfg env request_data w code.
Proof.
  intros H. rewrite create_short_url_unfold in H.
  apply bind_Ok_inv in H as (u0 & w0 & HL0 & H).
  apply Log_frame in HL0 as [Hdb0 Hdr0].
  apply bind_Ok_inv in H as (code & wa & Halloc & H).
  apply settle_shortcode_sound in Halloc as (Hdba & Hnone & Hfrom).
  apply bind_Ok_inv in H as (delta & wd & Hd & H).
  unfold lift in Hd. injection Hd as Hd <-.
  apply timedelta_minutes_Ok in Hd as ->.
  apply bind_Ok_inv in H as (exp & we & He & H).
  unfold lift in He. injection He as He <-.
  apply add_Ok in He as [-> Hrange].
  apply bind_Ok_inv in H as (u1 & w2 & HL1 & H).
  apply Log_frame in HL1 as [Hdb1 _].
  apply bind_Ok_inv in H as (u2 & w3 & Hins & H).
  unfold db_insert in Hins. injection Hins as _ <-.
  apply bind_Ok_inv in H as (u3 & w4 & HL2 & H).
  apply Log_frame in HL2 as [Hdb2 _]. cbn [url_db] in Hdb2.
  injection H as <- <-.
  exists code. split; [reflexivity | ].
  split; [congruence | ].
  split; [ | split; [exact Hrange | ]].
  - rewrite Hdb2, Hdb1, Hdba, Hdb0. reflexivity.
  - destruct Hfrom as [Hcustom | [Hi Htaken]]; [now left | right].
    split; [exact Hi | ]. intros c Hc Hne. rewrite <- Hdb0. now apply Htaken.
Qed.

(** A create returns when logging is quiet, the expiry is a datetime and
    a shortcode can be settled on. *)
Lemma create_short_url_returns request_data now fuel w :
  quiet env (log_state w) ->
  Datetime.in_range now = true ->
  Datetime.in_range
    (now + validity request_data * Datetime.US_PER_MINUTE) = true ->
  can_allocate cfg env request_data fuel w ->
  exists resp w1,
    create_short_url cfg env request_data now fuel w = (Ok resp, w1)
    /\ quiet env (log_state w1).
Proof.
  intros Hh Hnow Hexp Hcan. rewrite create_short_url_unfold.
  log_step.
  destruct (settle_shortcode_returns request_data fuel w0 Hq)
    as (code & wa & Halloc & Hqa).
  { destruct Hcan as [(c & Hsc & Hne & Hfree) | (k & Hk & Hfree)].
    - left. exists c. repeat split; congruence.
    - right. exists k. split; [exact Hk | ]. unfold candidate in *.
      congruence. }
  rewrite (bind_Ok _ _ _ _ _ Halloc).
  destruct (expiry_computes now (validity request_data) Hnow Hexp)
    as [Htd Hadd].
  rewrite (bind_Ok (lift _) _ wa _ wa (f_equal (fun o => (o, wa)) Htd)).
  rewrite (bind_Ok (lift _) _ wa _ wa (f_equal (fun o => (o, wa)) Hadd)).
  log_step.
  rewrite (bind_Ok (db_insert _ _) _ _ _ _ eq_refl).
  assert (Hq2 : quiet env (log_state
            {| url_db := <[code := {| long_url := url request_data;
                                      expiry_utc := now + validity request_data
                                          * Datetime.US_PER_MINUTE |}]>
                           (url_db w1);
               log_state := log_state w1; draws := draws w1 |}))
    by exact Hq0.
  log_step.
  now eexists _, _.
Qed.

Lemma is_digit_digit n : Datetime.is_digit (Datetime.digit n) = true.
Proof.
  unfold Datetime.digit.
  pose proof (Z.mod_pos_bound n 10 ltac:(lia)) as Hb.
  assert (Hk : (Z.to_nat (n mod 10) < 10)%nat) by lia.
  destruct (Z.to_nat (n mod 10)) as [ | k]; [reflexivity | ].
  do 9 (destruct k as [ | k]; [reflexivity | ]). lia.
Qed.

(** The text of an expiry always has the shape YYYY-MM-DDTHH:MM:SSZ. *)
Lemma strftime_iso_z_shape t :
  Datetime.iso8601_utc_shape (Datetime.strftime_iso_z t) = true.
Proof.
  unfold Datetime.strftime_iso_z, Datetime.date_time_to.
  destruct (Datetime.ymd t) as [[y m] d].
  unfold Datetime.pad4, Datetime.pad2, Datetime.iso8601_utc_shape.
  cbn [list_ascii_of_string forallb fst snd].
  rewrite !is_digit_digit. reflexivity.
Qed.

(** The code of a create that returned contains no ["/"]. *)
Lemma allocated_no_slash request_data w code :
  (forall s, shortcode request_data = Some s -> shortcode_field_ok s = true) ->
  allocated cfg env request_data w code ->
  has_slash code = false.
Proof.
  intros Hok [[Hsc _] | [[i ->] _]].
  - now apply shortcode_field_ok_facts, Hok.
  - apply (no_slash_of_forallb is_alnum); [reflexivity | ].
    apply join_choices_alnum.
Qed.

(** The store right after a create that returned holds the entry of the
    request under the code of the short link. *)
Lemma create_short_url_stored raw request_data now fuel w resp w1 :
  validate cfg parse_http_url raw = Some request_data ->
  create_short_url cfg env request_data now fuel w = (Ok resp, w1) ->
  url_db w1 !! last_segment (shortlink resp)
  = Some {| long_url := url request_data;
            expiry_utc := now + validity request_data
                                * Datetime.US_PER_MINUTE |}
  /\ expiry resp
     = Datetime.strftime_iso_z
         (now + validity request_data * Datetime.US_PER_MINUTE)
  /\ Datetime.in_range
       (now + validity request_data * Datetime.US_PER_MINUTE) = true.
Proof.
  intros Hval Hc.
  apply validate_Some in Hval as (_ & _ & _ & _ & Hok).
  apply create_short_url_sound in Hc
    as (code & -> & Hnone & Hdb & Hr & Hfrom).
  cbn [shortlink expiry].
  rewrite (last_segment_link _ _ (allocated_no_slash _ _ _ Hok Hfrom)).
  split; [ | now split]. rewrite Hdb. apply lookup_insert_eq.
Qed.

(** C1, as amended: from a quiet logging state, the shortcode read off
    the short link of a create that returned, looked up by the redirect
    handler right afterwards and no later than the expiry, resolves to a
    307 whose [Location] is the URL of the request percent-quoted, which
    is that URL itself when all its bytes are kept by the quoting; and the
    create does return such a link when the clock and the expiry are
    datetimes and a shortcode can be settled on. *)
Theorem create_then_redirect_round_trip raw request_data now fuel w :
  quiet env (log_state w) ->
  validate cfg parse_http_url raw = Some request_data ->
  (forall resp w1,
     create_short_url cfg env request_data now fuel w = (Ok resp, w1) ->
     forall now',
       now' <= now + validity request_data * Datetime.US_PER_MINUTE ->
       exists w2,
         redirect_to_long_url env (last_segment (shortlink resp)) now' w1
         = (Ok {| redirect_status := 307;
                  location := Urllib.quote REDIRECT_SAFE
                                (url request_data) |}, w2)
         /\ (forallb (Urllib.kept REDIRECT_SAFE)
                     (list_ascii_of_string (url request_data)) = true ->
             redirect_to_long_url env (last_segment (shortlink resp)) now' w1
             = (Ok {| redirect_status := 307;
                      location := url request_data |}, w2))
         /\ url_db w2 = url_db w1)
  /\ (Datetime.in_range now = true ->
      Datetime.in_range
        (now + validity request_data * Datetime.US_PER_MINUTE) = true ->
      can_allocate cfg env request_data fuel w ->
      exists resp w1,
        create_short_url cfg env request_data now fuel w = (Ok resp, w1)).
Proof.
  intros Hq Hval. split.
  - intros resp w1 Hc now' Hle.
    assert (Hq1 : quiet env (log_state w1)).
    { pose proof (create_short_url_keeps cfg env (quiet env)
                    (LoggerFacts.Log_quiet env) request_data now fuel w Hq)
        as H. now rewrite Hc in H. }
    destruct (create_short_url_stored raw request_data now fuel w resp w1
                Hval Hc) as (Hlook & _ & _).
    destruct (redirect_runs env (last_segment (shortlink resp)) now' w1 Hq1)
      as (w2 & Hr & Hdb & _).
    unfold redirect_answer, redirect_store in *. rewrite Hlook in *.
    cbn [expiry_utc long_url] in *.
    replace (now' >? _) with false in * by lia.
    exists w2. split; [exact Hr | ]. split; [ | exact Hdb].
    intros Hk. rewrite Hr. unfold redirect_response.
    now rewrite (quote_kept _ _ Hk).
  - intros Hnow Hexp Hcan.
    destruct (create_short_url_returns request_data now fuel w
                Hq Hnow Hexp Hcan) as (resp & w1 & Hc & _).
    now exists resp, w1.
Qed.

(** C6: for every valid create request, the expiry in the response is the
    creation time plus the requested validity in minutes (the configured
    default when the request gives none), printed as an ISO-8601 UTC
    string: a text of the shape YYYY-MM-DDTHH:MM:SSZ that reads back as
    that instant, to the second; and the entry stored under the returned
    code carries that same expiry timestamp.  The create does return such
    a response when logging is quiet, the clock and the expiry are
    datetimes and a shortcode can be settled on. *)
Theorem create_expiry_is_now_plus_validity raw request_data now fuel w :
  validate cfg parse_http_url raw = Some request_data ->
  let expiry_utc' :=
    now + default (DEFAULT_VALIDITY_MINUTES cfg) (raw_validity raw)
          * Datetime.US_PER_MINUTE in
  (forall resp w1,
     create_short_url cfg env request_data now fuel w = (Ok resp, w1) ->
     expiry resp = Datetime.strftime_iso_z expiry_utc'
     /\ Datetime.iso8601_utc_shape (expiry resp) = true
     /\ Datetime.parse_iso8601_utc (expiry resp)
        = Some (expiry_utc' - expiry_utc' mod 1000000)
     /\ url_db w1 !! last_segment (shortlink resp)
        = Some {| long_url := url request_data; expiry_utc := expiry_utc' |})
  /\ (quiet env (log_state w) ->
      Datetime.in_range now = true ->
      Datetime.in_range expiry_utc' = true ->
      can_allocate cfg env request_data fuel w ->
      exists resp w1,
        create_short_url cfg env request_data now fuel w = (Ok resp, w1)).
Proof.
  intros Hval expiry_utc'. subst expiry_utc'.
  pose proof Hval as Hval'.
  apply validate_Some in Hval' as (_ & <- & _ & _ & _). split.
  - intros resp w1 Hc.
    destruct (create_short_url_stored raw request_data now fuel w resp w1
                Hval Hc) as (Hlook & Hexp & Hr).
    split; [exact Hexp | ].
    split; [rewrite Hexp; apply strftime_iso_z_shape | ].
    split; [ | exact Hlook].
    rewrite Hexp. now apply DatetimeFacts.parse_strftime_iso_z.
  - intros Hq Hnow Hexp Hcan.
    destruct (create_short_url_returns request_data now fuel w
                Hq Hnow Hexp Hcan) as (resp & w1 & Hc & _).
    now exists resp, w1.
Qed.

(** C3, as amended: a valid create request whose custom shortcode is
    already in the store, handled from a quiet logging state with a clock
    and an expiry that are datetimes, returns 201 once the generator draws
    a free code within its attempts, and the code in its short link is a
    generated one (configured length, letters and digits, not a key of the
    store) that differs from the requested one. *)
Theorem create_with_taken_custom_code raw request_data c now fuel w :
  quiet env (log_state w) ->
  validate cfg parse_http_url raw = Some request_data ->
  raw_shortcode raw = Some c ->
  is_Some (url_db w !! c) ->
  Datetime.in_range now = true ->
  Datetime.in_range
    (now + validity request_data * Datetime.US_PER_MINUTE) = true ->
  fresh_within cfg env fuel w ->
  exists resp w1,
    create_short_url cfg env request_data now fuel w = (Ok resp, w1)
    /\ shorturls_status
         (fst (create_short_url cfg env request_data now fuel w)) = Some 201
    /\ last_segment (shortlink resp) <> c
    /\ String.length (last_segment (shortlink resp)) = SHORTCODE_LENGTH cfg
    /\ forallb is_alnum
         (list_ascii_of_string (last_segment (shortlink resp))) = true
    /\ url_db w !! last_segment (shortlink resp) = None.
Proof.
  intros Hh Hval Hraw Htaken Hnow Hexp Hfresh.
  destruct (create_short_url_returns request_data now fuel w
              Hh Hnow Hexp) as (resp & w1 & Hc & _); [now right | ].
  exists resp, w1. rewrite Hc. split; [reflexivity | ].
  split; [reflexivity | ].
  apply validate_Some in Hval as (_ & _ & _ & Hsc & Hok).
  apply create_short_url_sound in Hc
    as (code & -> & Hnone & Hdb & _ & Hfrom).
  cbn [shortlink].
  rewrite (last_segment_link _ _ (allocated_no_slash _ _ _ Hok Hfrom)).
  rewrite Hraw in Hsc.
  split; [ | split; [ | split]]; [ | | | exact Hnone].
  - intros ->. rewrite Hnone in Htaken. now destruct Htaken.
  - destruct Hfrom as [[Heq _] | [[i ->] _]].
    + rewrite Hsc in Heq. injection Heq as ->.
      rewrite Hnone in Htaken. now destruct Htaken.
    + apply join_choices_length.
  - destruct Hfrom as [[Heq _] | [[i ->] _]].
    + rewrite Hsc in Heq. injection Heq as ->.
      rewrite Hnone in Htaken. now destruct Htaken.
    + apply join_choices_alnum.
Qed.

End Create.

(** *** What the handlers do to the store, whatever their outcome *)

Section Frame.
Context (cfg : Config) (env : Env).

Lemma generate_loop_kept fuel : forall w,
  url_db (snd (generate_loop cfg env fuel w)) = url_db w.
Proof.
  induction fuel as [ | fuel IH]; intros w; [reflexivity | ].
  cbn [generate_loop].
  apply bind_kept; [reflexivity | intros code w1].
  apply bind_kept; [reflexivity | intros db w2].
  destruct (db !! code); [apply IH | ].
  apply bind_kept; [apply Log_kept | reflexivity].
Qed.

Lemma generate_unique_shortcode_kept fuel w :
  url_db (snd (generate_unique_shortcode cfg env fuel w)) = url_db w.
Proof.
  unfold generate_unique_shortcode.
  apply bind_kept; [apply Log_kept | intros _ w1; apply generate_loop_kept].
Qed.

Lemma settle_shortcode_kept request_data fuel w :
  url_db (snd (settle_shortcode cfg env request_data fuel w)) = url_db w.
Proof.
  unfold settle_shortcode.
  destruct (shortcode request_data) as [[ | c s] | ].
  - apply bind_kept; [apply Log_kept | intros _ w'].
    apply generate_unique_shortcode_kept.
  - apply bind_kept; [apply Log_kept | intros _ w'].
    apply bind_kept; [reflexivity | intros db w''].
    destruct (db !! String c s); [ | reflexivity].
    apply bind_kept; [apply Log_kept | intros _ w3].
    apply generate_unique_shortcode_kept.
  - apply bind_kept; [apply Log_kept | intros _ w'].
    apply generate_unique_shortcode_kept.
Qed.

Lemma health_check_kept w : url_db (snd (health_check env w)) = url_db w.
Proof.
  unfold health_check. apply bind_kept; [apply Log_kept | reflexivity].
Qed.

(** A redirect leaves the store alone, or evicts the entry it was asked
    for, whose expiry has then passed. *)
Lemma redirect_step code now w :
  url_db (snd (redirect_to_long_url env code now w)) = url_db w
  \/ exists e, url_db w !! code = Some e /\ now > expiry_utc e
       /\ url_db (snd (redirect_to_long_url env code now w))
          = delete code (url_db w).
Proof.
  unfold redirect_to_long_url.
  match goal with |- context [(?m ≫= ?k) w] =>
    destruct (bind_snd_cases m k w) as [(u & w0 & HL0 & ->) | ->]
  end;
    [ | left; apply Log_kept].
  apply Log_frame in HL0 as [Hdb0 _].
  rewrite (bind_Ok get_db _ w0 (url_db w0) w0 eq_refl).
  destruct (url_db w0 !! code) as [e | ] eqn:Hlook.
  - destruct (now >? expiry_utc e) eqn:Hcmp.
    + match goal with |- context [(?m ≫= ?k) w0] =>
        destruct (bind_snd_cases m k w0) as [(u1 & w1 & HL1 & ->) | ->]
      end.
      * apply Log_frame in HL1 as [Hdb1 _].
        right. exists e. split; [congruence | ]. split; [lia | ].
        rewrite (bind_Ok (db_delete _) _ _ _ _ eq_refl).
        cbn. congruence.
      * left. rewrite Log_kept. exact Hdb0.
    + left. rewrite <- Hdb0. apply bind_kept; [apply Log_kept | reflexivity].
  - left. rewrite <- Hdb0. apply bind_kept; [apply Log_kept | reflexivity].
Qed.

(** In every environment and for every outcome: the rest of the handler
    leaves the store alone or inserts the entry of the request under the
    settled code, with an expiry that is a datetime. *)
Lemma finish_create_step request_data now code wa :
  url_db (snd (finish_create cfg env request_data now code wa)) = url_db wa
  \/ (Datetime.in_range
        (now + validity request_data * Datetime.US_PER_MINUTE) = true
      /\ url_db (snd (finish_create cfg env request_data now code wa))
         = <[code := {| long_url := url request_data;
                        expiry_utc := now + validity request_data
                                            * Datetime.US_PER_MINUTE |}]>
             (url_db wa)).
Proof.
  unfold finish_create.
  rewrite bind_lift.
  destruct (Datetime.timedelta_minutes (validity request_data))
    as [delta | e | ] eqn:Hd; [ | now left ..].
  apply timedelta_minutes_Ok in Hd as ->.
  rewrite bind_lift.
  destruct (Datetime.add now _) as [exp | e | ] eqn:He; [ | now left ..].
  apply add_Ok in He as [-> Hrange].
  match goal with |- context [(?m ≫= ?k) wa] =>
    destruct (bind_snd_cases m k wa) as [(u1 & w1 & HL1 & ->) | ->]
  end; [ | left; apply Log_kept].
  apply Log_frame in HL1 as [Hdb1 _].
  rewrite (bind_Ok (db_insert _ _) _ _ _ _ eq_refl).
  right. split; [exact Hrange | ]. cbv beta.
  rewrite bind_kept; [cbn; congruence | apply Log_kept | reflexivity].
Qed.

Lemma create_step_allocated request_data now fuel w :
  url_db (snd (create_short_url cfg env request_data now fuel w)) = url_db w
  \/ exists code,
       url_db w !! code = None
       /\ allocated cfg env request_data w code
       /\ Datetime.in_range
            (now + validity request_data * Datetime.US_PER_MINUTE) = true
       /\ url_db (snd (create_short_url cfg env request_data now fuel w))
          = <[code := {| long_url := url request_data;
                         expiry_utc := now + validity request_data
                                             * Datetime.US_PER_MINUTE |}]>
              (url_db w).
Proof.
  rewrite create_short_url_split.
  match goal with |- context [(?m ≫= ?k) w] =>
    destruct (bind_snd_cases m k w) as [(u0 & w0 & HL0 & ->) | ->]
  end; [ | left; apply Log_kept].
  apply Log_frame in HL0 as [Hdb0 _].
  match goal with |- context [(?m ≫= ?k) w0] =>
    destruct (bind_snd_cases m k w0) as [(code & wa & Ha & ->) | ->]
  end; [ | left; rewrite settle_shortcode_kept; exact Hdb0].
  apply settle_shortcode_sound in Ha as (Hdba & Hnone & Hfrom).
  destruct (finish_create_step request_data now code wa) as [-> | [Hr ->]].
  - left. congruence.
  - right. exists code. split; [congruence | ].
    split; [ | split; [exact Hr | congruence]].
    destruct Hfrom as [Hcustom | [Hi Htaken]]; [now left | right].
    split; [exact Hi | ]. intros c Hc Hne. rewrite <- Hdb0. now apply Htaken.
Qed.

(** A create leaves the store alone, or adds one entry under a key that
    was absent. *)
Lemma create_step request_data now fuel w :
  url_db (snd (create_short_url cfg env request_data now fuel w)) = url_db w
  \/ exists code e,
       url_db w !! code = None
       /\ url_db (snd (create_short_url cfg env request_data now fuel w))
          = <[code := e]> (url_db w).
Proof.
  rewrite create_short_url_unfold.
  match goal with |- context [(?m ≫= ?k) w] =>
    destruct (bind_snd_cases m k w) as [(u0 & w0 & HL0 & ->) | ->]
  end; [ | left; apply Log_kept].
  apply Log_frame in HL0 as [Hdb0 _].
  match goal with |- context [(?m ≫= ?k) w0] =>
    destruct (bind_snd_cases m k w0) as [(code & wa & Ha & ->) | ->]
  end; [ | left; rewrite settle_shortcode_kept; exact Hdb0].
  apply settle_shortcode_sound in Ha as (Hdba & Hnone & _).
  match goal with |- context [(?m ≫= ?k) wa] =>
    destruct (bind_snd_cases m k wa) as [(delta & wd & Hd & ->) | ->]
  end; [ | left; cbn; congruence].
  unfold lift in Hd. injection Hd as _ <-.
  match goal with |- context [(?m ≫= ?k) wa] =>
    destruct (bind_snd_cases m k wa) as [(exp & we & He & ->) | ->]
  end; [ | left; cbn; congruence].
  unfold lift in He. injection He as _ <-.
  match goal with |- context [(?m ≫= ?k) wa] =>
    destruct (bind_snd_cases m k wa) as [(u1 & w1 & HL1 & ->) | ->]
  end; [ | left; rewrite Log_kept; congruence].
  apply Log_frame in HL1 as [Hdb1 _].
  rewrite (bind_Ok (db_insert _ _) _ _ _ _ eq_refl).
  right. exists code, {| long_url := url request_data; expiry_utc := exp |}.
  split; [congruence | ].
  rewrite bind_kept; [cbn; congruence | apply Log_kept | reflexivity].
Qed.

Lemma handle_step r w k e :
  url_db w !! k = Some e ->
  url_db (handle cfg env r w) !! k = Some e
  \/ (url_db (handle cfg env r w) !! k = None
      /\ exists now, r = GetShortcode k now /\ now > expiry_utc e).
Proof.
  intros Hk. destruct r as [request_data now fuel | code now | ];
    cbn [handle].
  - left.
    destruct (create_step request_data now fuel w)
      as [-> | (code & e' & Hnone & ->)]; [exact Hk | ].
    rewrite lookup_insert_ne; [exact Hk | congruence].
  - destruct (redirect_step code now w) as [-> | (e' & He' & Hgt & ->)];
      [now left | ].
    destruct (decide (code = k)) as [-> | Hne].
    + right. split; [apply lookup_delete_eq | ].
      exists now. split; [reflexivity | ].
      rewrite Hk in He'. now injection He' as <-.
    + left. now rewrite lookup_delete_ne.
  - left. now rewrite health_check_kept.
Qed.

(** X15: when requests are handled one after another, each handler
    running to its end before the next starts, an entry in the store is
    never changed: a create leaves the store alone or inserts under a key
    that was absent, the only removal is the eviction by an access to that
    very key after its expiry, and over any sequence of requests without
    such an access the entry stays exactly as it was created. *)
Theorem sequential_requests_never_mutate_an_entry w :
  (forall request_data now fuel,
     url_db (snd (create_short_url cfg env request_data now fuel w))
       = url_db w
     \/ exists code e,
          url_db w !! code = None
          /\ url_db (snd (create_short_url cfg env request_data now fuel w))
             = <[code := e]> (url_db w))
  /\ (forall r k e,
       url_db w !! k = Some e ->
       url_db (handle cfg env r w) !! k = Some e
       \/ (url_db (handle cfg env r w) !! k = None
           /\ exists now, r = GetShortcode k now /\ now > expiry_utc e))
  /\ (forall rs k e,
       url_db w !! k = Some e ->
       (forall now, In (GetShortcode k now) rs -> now <= expiry_utc e) ->
       url_db (handle_all cfg env rs w) !! k = Some e).
Proof.
  split; [ | split].
  - intros request_data now fuel. apply create_step.
  - intros r k e. apply handle_step.
  - intros rs. revert w.
    induction rs as [ | r rs IH]; intros w k e Hk Hacc; [exact Hk | ].
    change (handle_all cfg env (r :: rs) w)
      with (handle_all cfg env rs (handle cfg env r w)).
    apply IH.
    + destruct (handle_step r w k e Hk) as [H | (_ & now & -> & Hgt)];
        [exact H | ].
      specialize (Hacc now (or_introl eq_refl)). lia.
    + intros now Hin. apply Hacc. now right.
Qed.

End Frame.

(** *** Two creates that overlap *)

Section Overlap.
Context (cfg : Config) (env : Env).

(** A create asking for a free custom code gets past line 68 with that
    code and the store untouched. *)
Lemma create_prefix_custom_free request_data fuel c w :
  quiet env (log_state w) ->
  shortcode request_data = Some c ->
  c <> EmptyString ->
  url_db w !! c = None ->
  exists wa,
    create_prefix cfg env request_data fuel w = (Ok c, wa)
    /\ url_db wa = url_db w /\ draws wa = draws w
    /\ quiet env (log_state wa).
Proof.
  intros Hq Hsc Hne Hfree. unfold create_prefix.
  log_step.
  destruct (settle_custom_free cfg env request_data fuel c w0 Hq0 Hsc Hne)
    as (wa & Ha & Hdba & Hdra & Hqa); [congruence | ].
  exists wa. split; [exact Ha | ]. repeat split; congruence.
Qed.

(** C9: an entry of the store is meant never to change once created, a
    create inserting under absent keys only.  [url_db] has no lock: when
    two creates asking for the same free custom code overlap, both pass
    the membership test before either stores, both answer with the short
    link of that code, and the entry the first one stored, destination URL
    and expiry, is overwritten by the second. *)
Theorem overlapped_creates_overwrite_an_entry a b c now_a now_b fuel w :
  quiet env (log_state w) ->
  shortcode a = Some c ->
  shortcode b = Some c ->
  c <> EmptyString ->
  url_db w !! c = None ->
  Datetime.in_range now_a = true ->
  Datetime.in_range (now_a + validity a * Datetime.US_PER_MINUTE) = true ->
  Datetime.in_range now_b = true ->
  Datetime.in_range (now_b + validity b * Datetime.US_PER_MINUTE) = true ->
  let entry_a :=
    {| long_url := url a;
       expiry_utc := now_a + validity a * Datetime.US_PER_MINUTE |} in
  let entry_b :=
    {| long_url := url b;
       expiry_utc := now_b + validity b * Datetime.US_PER_MINUTE |} in
  let resp_a :=
    {| shortlink := BASE_SHORT_URL cfg +:+ "/" +:+ c;
       expiry := Datetime.strftime_iso_z (expiry_utc entry_a) |} in
  let resp_b :=
    {| shortlink := BASE_SHORT_URL cfg +:+ "/" +:+ c;
       expiry := Datetime.strftime_iso_z (expiry_utc entry_b) |} in
  exists wa wb wm w1,
    create_prefix cfg env a fuel w = (Ok c, wa)
    /\ create_prefix cfg env b fuel wa = (Ok c, wb)
    /\ finish_create cfg env a now_a c wb = (Ok resp_a, wm)
    /\ url_db wm !! c = Some entry_a
    /\ finish_create cfg env b now_b c wm = (Ok resp_b, w1)
    /\ url_db w1 !! c = Some entry_b
    /\ url_db w1 = <[c := entry_b]> (<[c := entry_a]> (url_db w))
    /\ overlapped_creates cfg env a now_a b now_b fuel w
       = (Ok (resp_a, resp_b), w1).
Proof.
  intros Hq Ha Hb Hne Hfree Hna Hea Hnb Heb entry_a entry_b resp_a resp_b.
  destruct (create_prefix_custom_free a fuel c w Hq Ha Hne Hfree)
    as (wa & Hpa & Hdba & _ & Hqa).
  destruct (create_prefix_custom_free b fuel c wa Hqa Hb Hne)
    as (wb & Hpb & Hdbb & _ & Hqb); [congruence | ].
  destruct (finish_create_runs cfg env a now_a c wb Hqb)
    as (wm & Hfa & Hdbm & _ & Hqm).
  rewrite (expiry_of_in_range _ _ Hna Hea) in Hfa, Hdbm.
  destruct (finish_create_runs cfg env b now_b c wm Hqm)
    as (w1 & Hfb & Hdb1 & _ & _).
  rewrite (expiry_of_in_range _ _ Hnb Heb) in Hfb, Hdb1.
  exists wa, wb, wm, w1.
  split; [exact Hpa | ]. split; [exact Hpb | ]. split; [exact Hfa | ].
  split; [rewrite Hdbm; apply lookup_insert_eq | ].
  split; [exact Hfb | ].
  split; [rewrite Hdb1; apply lookup_insert_eq | ].
  split; [rewrite Hdb1, Hdbm, Hdbb, Hdba; reflexivity | ].
  unfold overlapped_creates.
  rewrite (bind_Ok _ _ _ _ _ Hpa), (bind_Ok _ _ _ _ _ Hpb).
  rewrite (bind_Ok _ _ _ _ _ Hfa), (bind_Ok _ _ _ _ _ Hfb).
  reflexivity.
Qed.

End Overlap.

(** *** The theorems at concrete inputs *)

Section Witnesses.
Import Examples.

Lemma env_down_healthy : healthy env_down.
Proof. intros i. reflexivity. Qed.

Lemma env_down_quiet lg :
  Logger.storage_truthy lg = false -> quiet env_down lg.
Proof. intros H. right. split; [exact H | exact env_down_healthy]. Qed.

Lemma redirect_unknown_stops_on_auth_fault_witness :
  exists w',
    redirect_to_long_url array_env "zzzz" now0 w_abcd
    = (Raise AttributeError, w')
    /\ http_status 307
         (fst (redirect_to_long_url array_env "zzzz" now0 w_abcd)) = Some 500
    /\ fst (redirect_to_long_url array_env "zzzz" now0 w_abcd)
       <> Raise (HTTPException 404 "Short URL not found.")
    /\ url_db w' = url_db w_abcd.
Proof.
  apply (redirect_unknown_stops_on_auth_fault array_env "zzzz" now0 w_abcd);
    reflexivity.
Defined.

Lemma redirect_expired_stops_on_auth_fault_witness :
  exists w',
    redirect_to_long_url array_env "abcd" (now0 + 61000000) w_abcd
    = (Raise AttributeError, w')
    /\ http_status 307
         (fst (redirect_to_long_url array_env "abcd" (now0 + 61000000)
                 w_abcd)) = Some 500
    /\ fst (redirect_to_long_url array_env "abcd" (now0 + 61000000) w_abcd)
       <> Raise (HTTPException 410 "This Short URL has expired.")
    /\ url_db w' !! "abcd" = Some entry_abcd.
Proof.
  apply (redirect_expired_stops_on_auth_fault array_env "abcd"
           (now0 + 61000000) w_abcd entry_abcd); reflexivity.
Defined.

Lemma redirect_at_expiry_instant_witness :
  exists w',
    redirect_to_long_url env_down "abcd" (expiry_utc entry_abcd) w_abcd
    = (Ok {| redirect_status := 307;
             location := Urllib.quote REDIRECT_SAFE (long_url entry_abcd) |},
       w')
    /\ (forallb (Urllib.kept REDIRECT_SAFE)
                (list_ascii_of_string (long_url entry_abcd)) = true ->
        redirect_to_long_url env_down "abcd" (expiry_utc entry_abcd) w_abcd
        = (Ok {| redirect_status := 307;
                 location := long_url entry_abcd |}, w'))
    /\ url_db w' = url_db w_abcd
    /\ quiet env_down (log_state w').
Proof.
  apply (redirect_at_expiry_instant env_down "abcd" w_abcd entry_abcd).
  - apply env_down_quiet. reflexivity.
  - reflexivity.
Defined.

(** C10 as stated fails on the target of the redirect: at the expiry
    instant of an entry whose URL has a byte the quoting escapes, the
    [Location] is not the stored URL. *)
Lemma redirect_at_expiry_instant_counterexample :
  url_db w_pipe !! "pipe" = Some entry_pipe
  /\ quiet env_down (log_state w_pipe)
  /\ fst (redirect_to_long_url env_down "pipe" (expiry_utc entry_pipe) w_pipe)
     = Ok {| redirect_status := 307;
             location := "https://example.com/a%7Cb" |}
  /\ fst (redirect_to_long_url env_down "pipe" (expiry_utc entry_pipe) w_pipe)
     <> Ok {| redirect_status := 307; location := long_url entry_pipe |}.
Proof.
  split; [reflexivity | ].
  split; [apply env_down_quiet; reflexivity | ].
  split; [reflexivity | discriminate].
Qed.

Lemma generate_unique_shortcode_fresh_alnum_witness :
  exists code w1,
    generate_unique_shortcode cfg env_down 1 w_abcd = (Ok code, w1)
    /\ String.length code = 6%nat
    /\ forallb is_alnum (list_ascii_of_string code) = true
    /\ url_db w_abcd !! code = None
    /\ url_db w1 = url_db w_abcd.
Proof.
  destruct (proj2 (generate_unique_shortcode_fresh_alnum cfg env_down 1 w_abcd))
    as (code & w1 & Hg).
  - apply env_down_quiet. reflexivity.
  - exists 0%nat. split; [lia | reflexivity].
  - exists code, w1. split; [exact Hg | ].
    exact (proj1 (generate_unique_shortcode_fresh_alnum cfg env_down 1 w_abcd)
             code w1 Hg).
Defined.

Lemma create_then_redirect_round_trip_witness :
  exists resp w1 w2,
    create_short_url cfg env_down req_abcd now0 1 Main.initial = (Ok resp, w1)
    /\ redirect_to_long_url env_down (last_segment (shortlink resp)) now0 w1
       = (Ok {| redirect_status := 307;
                location := "https://example.com/page" |}, w2).
Proof.
  destruct (create_then_redirect_round_trip cfg env_down parse_any
              raw_abcd req_abcd now0 1 Main.initial) as [Hround Hret].
  - apply env_down_quiet. reflexivity.
  - reflexivity.
  - destruct Hret as (resp & w1 & Hc).
    + reflexivity.
    + reflexivity.
    + left. exists "abcd". split; [reflexivity | ].
      split; [discriminate | reflexivity].
    + destruct (Hround resp w1 Hc now0) as (w2 & _ & Hr & _).
      * unfold req_abcd, Datetime.US_PER_MINUTE. cbn [validity]. lia.
      * exists resp, w1, w2. split; [exact Hc | ].
        apply Hr. reflexivity.
Defined.

(** C1 as stated fails on the target of the redirect: a valid request
    whose URL has a byte the quoting escapes is created and then followed,
    and the [Location] is not the URL of the request. *)
Lemma create_then_redirect_round_trip_counterexample :
  validate cfg parse_any raw_pipe = Some req_pipe
  /\ quiet env_down (log_state Main.initial)
  /\ create_short_url cfg env_down req_pipe now0 1 Main.initial
     = (Ok {| shortlink := "http://localhost:8000/pipe";
              expiry := "2026-01-01T00:01:00Z" |}, w_pipe)
  /\ last_segment "http://localhost:8000/pipe" = "pipe"
  /\ fst (redirect_to_long_url env_down "pipe" now0 w_pipe)
     = Ok {| redirect_status := 307;
             location := "https://example.com/a%7Cb" |}
  /\ fst (redirect_to_long_url env_down "pipe" now0 w_pipe)
     <> Ok {| redirect_status := 307; location := url req_pipe |}.
Proof.
  split; [reflexivity | ].
  split; [apply env_down_quiet; reflexivity | ].
  split; [reflexivity | ].
  split; [reflexivity | ].
  split; [reflexivity | discriminate].
Qed.

Lemma create_expiry_is_now_plus_validity_witness :
  exists resp w1,
    create_short_url cfg env_down req_abcd now0 1 Main.initial = (Ok resp, w1)
    /\ expiry resp = "2026-01-01T00:01:00Z"
    /\ Datetime.iso8601_utc_shape (expiry resp) = true
    /\ Datetime.parse_iso8601_utc (expiry resp) = Some (now0 + 60000000)
    /\ url_db w1 !! last_segment (shortlink resp) = Some entry_abcd.
Proof.
  destruct (create_expiry_is_now_plus_validity cfg env_down parse_any
              raw_abcd req_abcd now0 1 Main.initial) as [Hexp Hret].
  - reflexivity.
  - destruct Hret as (resp & w1 & Hc).
    + apply env_down_quiet. reflexivity.
    + reflexivity.
    + reflexivity.
    + left. exists "abcd". split; [reflexivity | ].
      split; [discriminate | reflexivity].
    + exists resp, w1. split; [exact Hc | ].
      exact (Hexp resp w1 Hc).
Defined.

Lemma create_with_taken_custom_code_witness :
  exists resp w1,
    create_short_url cfg env_down req_abcd now0 1 w_abcd = (Ok resp, w1)
    /\ shorturls_status
         (fst (create_short_url cfg env_down req_abcd now0 1 w_abcd))
       = Some 201
    /\ last_segment (shortlink resp) <> "abcd"
    /\ String.length (last_segment (shortlink resp)) = 6%nat
    /\ forallb is_alnum
         (list_ascii_of_string (last_segment (shortlink resp))) = true
    /\ url_db w_abcd !! last_segment (shortlink resp) = None.
Proof.
  apply (create_with_taken_custom_code cfg env_down parse_any
           raw_abcd req_abcd "abcd" now0 1 w_abcd).
  - apply env_down_quiet. reflexivity.
  - reflexivity.
  - reflexivity.
  - exists entry_abcd. reflexivity.
  - reflexivity.
  - reflexivity.
  - exists 0%nat. split; [lia | reflexivity].
Defined.

(** C3 as stated fails: the taken code ["abcd"] requested with a validity
    of 10^10 minutes is a valid request, logging is quiet and the
    generator's first draw is free, yet the handler raises [OverflowError]
    when it adds the validity to the clock, and the caller gets 500. *)
Lemma create_with_taken_custom_code_counterexample :
  validate cfg parse_any raw_far = Some req_far
  /\ is_Some (url_db w_abcd !! "abcd")
  /\ quiet env_down (log_state w_abcd)
  /\ fresh_within cfg env_down 1 w_abcd
  /\ Datetime.in_range now0 = true
  /\ fst (create_short_url cfg env_down req_far now0 1 w_abcd)
     = Raise OverflowError
  /\ shorturls_status
       (fst (create_short_url cfg env_down req_far now0 1 w_abcd))
     = Some 500.
Proof.
  split; [reflexivity | ].
  split; [exists entry_abcd; reflexivity | ].
  split; [apply env_down_quiet; reflexivity | ].
  split; [exists 0%nat; split; [lia | reflexivity] | ].
  split; [reflexivity | ].
  split; reflexivity.
Qed.

Lemma sequential_requests_never_mutate_an_entry_witness :
  url_db (handle_all cfg env_down
            [GetRoot;
             PostShorturls req_abcd now0 1;
             GetShortcode "abcd" (now0 + 60000000);
             GetShortcode "zzzz" (now0 + 90000000)]
            w_abcd) !! "abcd" = Some entry_abcd.
Proof.
  apply (proj2 (proj2
           (sequential_requests_never_mutate_an_entry cfg env_down w_abcd))).
  - reflexivity.
  - intros now [H | [H | [H | [H | []]]]]; try discriminate.
    injection H as <-. cbn [expiry_utc entry_abcd]. lia.
Defined.

Lemma overlapped_creates_overwrite_an_entry_witness :
  exists wa wb wm w1,
    create_prefix cfg env_down req_abcd 1 Main.initial = (Ok "abcd", wa)
    /\ create_prefix cfg env_down req_abcd_too 1 wa = (Ok "abcd", wb)
    /\ finish_create cfg env_down req_abcd now0 "abcd" wb
       = (Ok {| shortlink := BASE_SHORT_URL cfg +:+ "/" +:+ "abcd";
                expiry := Datetime.strftime_iso_z
                            (now0 + validity req_abcd
                                    * Datetime.US_PER_MINUTE) |}, wm)
    /\ url_db wm !! "abcd"
       = Some {| long_url := url req_abcd;
                 expiry_utc := now0 + validity req_abcd
                                      * Datetime.US_PER_MINUTE |}
    /\ finish_create cfg env_down req_abcd_too now0 "abcd" wm
       = (Ok {| shortlink := BASE_SHORT_URL cfg +:+ "/" +:+ "abcd";
                expiry := Datetime.strftime_iso_z
                            (now0 + validity req_abcd_too
                                    * Datetime.US_PER_MINUTE) |}, w1)
    /\ url_db w1 !! "abcd"
       = Some {| long_url := url req_abcd_too;
                 expiry_utc := now0 + validity req_abcd_too
                                      * Datetime.US_PER_MINUTE |}
    /\ url_db w1
       = <["abcd" := {| long_url := url req_abcd_too;
                        expiry_utc := now0 + validity req_abcd_too
                                             * Datetime.US_PER_MINUTE |}]>
           (<["abcd" := {| long_url := url req_abcd;
                           expiry_utc := now0 + validity req_abcd
                                                * Datetime.US_PER_MINUTE |}]>
              (url_db Main.initial))
    /\ overlapped_creates cfg env_down req_abcd now0 req_abcd_too now0 1
         Main.initial
       = (Ok ({| shortlink := BASE_SHORT_URL cfg +:+ "/" +:+ "abcd";
                 expiry := Datetime.strftime_iso_z
                             (now0 + validity req_abcd
                                     * Datetime.US_PER_MINUTE) |},
              {| shortlink := BASE_SHORT_URL cfg +:+ "/" +:+ "abcd";
                 expiry := Datetime.strftime_iso_z
                             (now0 + validity req_abcd_too
                                     * Datetime.US_PER_MINUTE) |}), w1).
Proof.
  apply (overlapped_creates_overwrite_an_entry cfg env_down
           req_abcd req_abcd_too "abcd" now0 now0 1 Main.initial).
  - apply env_down_quiet. reflexivity.
  - reflexivity.
  - reflexivity.
  - discriminate.
  - reflexivity.
  - reflexivity.
  - reflexivity.
  - reflexivity.
  - reflexivity.
Defined.

End Witnesses.

(** *** The model run on the scenarios of the specification *)

Section Scenarios.
Import Examples.

(** Dates around leap days and at both ends of the range. *)
Example strftime_epoch :
  Datetime.strftime_iso_z ((719163 - 1) * Datetime.US_PER_DAY)
  = "1970-01-01T00:00:00Z".
Proof. reflexivity. Qed.

Example strftime_leap_day :
  Datetime.strftime_iso_z
    ((730179 - 1) * Datetime.US_PER_DAY + 86399 * 1000000 + 999999)
  = "2000-02-29T23:59:59Z".
Proof. reflexivity. Qed.

Example strftime_leap_year_end :
  Datetime.strftime_iso_z ((739251 - 1) * Datetime.US_PER_DAY)
  = "2024-12-31T00:00:00Z".
Proof. reflexivity. Qed.

Example strftime_max :
  Datetime.strftime_iso_z (Datetime.MAXORDINAL * Datetime.US_PER_DAY - 1)
  = "9999-12-31T23:59:59Z".
Proof. reflexivity. Qed.

Example isoformat_fraction :
  Datetime.isoformat (now0 + 60000000 + 5)
  = "2026-01-01T00:01:00.000005+00:00".
Proof. reflexivity. Qed.

(** create with url, validity=1, shortcode="abcd" gives a short link
    ending in "/abcd". *)
Example scenario_create :
  fst (create_short_url cfg env_down req_abcd now0 1 Main.initial)
  = Ok {| shortlink := "http://localhost:8000/abcd";
          expiry := "2026-01-01T00:01:00Z" |}
  /\ url_db (snd (create_short_url cfg env_down req_abcd now0 1 Main.initial))
     = url_db w_abcd.
Proof. split; reflexivity. Qed.

(** After 61 seconds GET /abcd gives 410, the next GET gives 404. *)
Example scenario_expiry :
  fst (redirects env_down "abcd" [now0 + 61000000; now0 + 62000000] w_abcd)
  = [Raise (HTTPException 410 "This Short URL has expired.");
     Raise (HTTPException 404 "Short URL not found.")].
Proof. reflexivity. Qed.

(** create with shortcode="abcd" already taken gives another code. *)
Example scenario_collision :
  fst (create_short_url cfg env_down req_abcd now0 1 w_abcd)
  = Ok {| shortlink := "http://localhost:8000/abcdef";
          expiry := "2026-01-01T00:01:00Z" |}.
Proof. reflexivity. Qed.

(** With a token cached the events reach the log endpoint. *)
Example scenario_logging :
  let lg := log_state (snd (health_check granting_env Main.initial)) in
  Logger.auth_posts lg = 1%nat
  /\ Logger.outbox lg
     = [LogEvent (JStr "tok") "backend" "info" "route"
          "Health check endpoint was hit."].
Proof. split; reflexivity. Qed.

End Scenarios.

End MainFacts.

(** ** Further properties of the logging client *)

Module LoggerMore.
Import Logger Vocabulary.

(** The three kinds of auth reply exclude each other and cover all. *)
Lemma auth_reply_kinds o :
  (auth_reply_denies o = true /\ auth_reply_grants o = None
   /\ auth_reply_faults o = false)
  \/ ((exists t, auth_reply_grants o = Some t /\ truthy t = true)
      /\ auth_reply_denies o = false /\ auth_reply_faults o = false)
  \/ (auth_reply_faults o = true /\ auth_reply_denies o = false
      /\ auth_reply_grants o = None).
Proof.
  destruct o as [r | e]; cbn; [ | now left].
  destruct (raise_for_status r); [now left | ].
  destruct (json_body r) as [[ | | | | | items] | ];
    try (now left); try (right; now right).
  destruct (truthy (dict_get items "access_token")) eqn:Ht; cbn.
  - right. left. split; [now eexists | now split].
  - now left.
Qed.

Lemma get_auth_token_denied env lg :
  storage_truthy lg = false ->
  auth_reply_denies (auth_net env (auth_posts lg)) = true ->
  exists line,
    get_auth_token env lg
    = (Ok JNull,
       print line
         {| auth_token_storage := auth_token_storage lg;
            auth_posts := S (auth_posts lg);
            outbox := outbox lg;
            console := PrintAttempting :: console lg |}).
Proof.
  intros Hs Hd. unfold get_auth_token. rewrite Hs. cbn.
  unfold auth_reply_denies in Hd.
  destruct (auth_net env (auth_posts lg)) as [r | e]; [ | now eexists].
  destruct (raise_for_status r); [now eexists | ].
  destruct (json_body r) as [[ | | | | | items] | ];
    try discriminate; [ | now eexists].
  rewrite Hd. now eexists.
Qed.

Lemma get_auth_token_granted env lg t :
  storage_truthy lg = false ->
  auth_reply_grants (auth_net env (auth_posts lg)) = Some t ->
  truthy t = true
  /\ get_auth_token env lg
     = (Ok t,
        {| auth_token_storage := Some [("token", t)];
           auth_posts := S (auth_posts lg);
           outbox := outbox lg;
           console := PrintCached :: PrintAttempting :: console lg |}).
Proof.
  intros Hs Hg. unfold get_auth_token. rewrite Hs. cbn.
  unfold auth_reply_grants in Hg.
  destruct (auth_net env (auth_posts lg)) as [r | e]; [ | discriminate].
  destruct (raise_for_status r); [discriminate | ].
  destruct (json_body r) as [[ | | | | | items] | ]; try discriminate.
  destruct (truthy (dict_get items "access_token")) eqn:Ht; [ | discriminate].
  injection Hg as <-. cbn. now split.
Qed.

Lemma get_auth_token_faulted env lg :
  storage_truthy lg = false ->
  auth_reply_faults (auth_net env (auth_posts lg)) = true ->
  get_auth_token env lg
  = (Raise AttributeError,
     {| auth_token_storage := auth_token_storage lg;
        auth_posts := S (auth_posts lg);
        outbox := outbox lg;
        console := PrintAttempting :: console lg |}).
Proof.
  intros Hs Hf. unfold get_auth_token. rewrite Hs. cbn.
  unfold auth_reply_faults in Hf.
  destruct (auth_net env (auth_posts lg)) as [r | e]; [ | discriminate].
  destruct (raise_for_status r); [discriminate | ].
  destruct (json_body r) as [[ | | | | | items] | ];
    try discriminate; reflexivity.
Qed.

(** What [Log] does once it holds a token. *)
Lemma Log_with stack level package message env lg lg1 t :
  get_auth_token env lg = (Ok t, lg1) ->
  truthy t = true ->
  Log env stack level package message lg
  = if header_encodable env t then
      (Ok tt,
       {| auth_token_storage := auth_token_storage lg1;
          auth_posts := auth_posts lg1;
          outbox := LogEvent t stack level package message :: outbox lg1;
          console :=
            submission_console
              (log_net env (length (outbox lg1))
                 (LogEvent t stack level package message))
              (console lg1) |})
    else (Raise UnicodeEncodeError, lg1).
Proof.
  intros Hg Ht. unfold Log. rewrite Hg, Ht. cbn.
  destruct (header_encodable env t); cbn; [ | reflexivity].
  unfold submission_console.
  destruct (log_net env (length (outbox lg1)) _) as [r | e]; [ | reflexivity].
  now destruct (status_code r =? 200).
Qed.


Lemma Log_denied
    env stack level package message lg :
  storage_truthy lg = false ->
  auth_reply_denies (auth_net env (auth_posts lg)) = true ->
  exists lg',
    Log env stack level package message lg = (Ok tt, lg')
    /\ auth_token_storage lg' = auth_token_storage lg
    /\ auth_posts lg' = S (auth_posts lg)
    /\ outbox lg' = outbox lg
    /\ head (console lg')
       = Some (PrintLogFailed (upper level) package message).
Proof.
  intros Hs Hd. unfold Log.
  destruct (get_auth_token_denied env lg Hs Hd) as (line & ->).
  cbn. eexists. repeat split.
Qed.

(** After a grant the token is cached, whether or not the event could
    be sent. *)
Lemma Log_granted
    env stack level package message lg t :
  storage_truthy lg = false ->
  auth_reply_grants (auth_net env (auth_posts lg)) = Some t ->
  cached (snd (Log env stack level package message lg)) t
  /\ auth_posts (snd (Log env stack level package message lg))
     = S (auth_posts lg)
  /\ outbox (snd (Log env stack level package message lg))
     = if header_encodable env t
       then LogEvent t stack level package message :: outbox lg
       else outbox lg.
Proof.
  intros Hs Hg.
  destruct (get_auth_token_granted env lg t Hs Hg) as [Ht Hgt].
  rewrite (Log_with stack level package message env lg _ t Hgt Ht).
  destruct (header_encodable env t); cbn; now repeat split.
Qed.

Lemma Log_submits
    env stack level package message lg t :
  cached lg t ->
  header_encodable env t = true ->
  exists lg',
    Log env stack level package message lg = (Ok tt, lg')
    /\ auth_token_storage lg' = auth_token_storage lg
    /\ auth_posts lg' = auth_posts lg
    /\ outbox lg' = LogEvent t stack level package message :: outbox lg
    /\ console lg'
       = submission_console
           (log_net env (length (outbox lg))
              (LogEvent t stack level package message)) (console lg).
Proof.
  intros Hc He.
  rewrite (Log_with stack level package message env lg lg t
             (LoggerFacts.get_auth_token_cached _ _ _ Hc) (proj2 Hc)).
  rewrite He. eexists. repeat split.
Qed.

Lemma run_call_outbox_inv env c lg :
  outbox_inv lg -> outbox_inv (run_call env c lg).
Proof.
  intros [[Hn Ho] | (t & Hc & Hall)].
  - assert (Hs : storage_truthy lg = false)
      by (unfold storage_truthy; now rewrite Hn).
    destruct (auth_reply_kinds (auth_net env (auth_posts lg)))
      as [(Hd & _) | [((t & Hg & Ht) & _) | (Hbad & Hd & Hg)]].
    + destruct c as [ | stack level package message]; cbn [run_call].
      * destruct (get_auth_token_denied env lg Hs Hd) as (line & ->).
        left. now split.
      * destruct (Log_denied env stack level package
                    message lg Hs Hd) as (lg' & -> & Hst & _ & Hout & _).
        left. cbn. split; congruence.
    + destruct c as [ | stack level package message]; cbn [run_call].
      * destruct (get_auth_token_granted env lg t Hs Hg) as [_ ->].
        right. exists t. cbn. split; [now split | ]. rewrite Ho. constructor.
      * destruct (Log_granted env stack level package
                    message lg t Hs Hg) as (Hc & _ & Hout).
        right. exists t. split; [exact Hc | ]. rewrite Hout, Ho.
        destruct (header_encodable env t); now repeat constructor.
    + pose proof (get_auth_token_faulted env lg Hs Hbad) as Hraise.
      destruct c as [ | stack level package message]; cbn [run_call].
      * rewrite Hraise. left. now split.
      * unfold Log. rewrite Hraise. left. now split.
  - right. exists t.
    destruct c as [ | stack level package message]; cbn [run_call].
    + rewrite (LoggerFacts.get_auth_token_cached _ _ _ Hc). now split.
    + rewrite (Log_with stack level package message env lg lg t
                 (LoggerFacts.get_auth_token_cached _ _ _ Hc) (proj2 Hc)).
      destruct (header_encodable env t); cbn [snd]; [ | now split].
      split; [exact Hc | now constructor].
Qed.

(** X5: in every state the module reaches, nothing has been sent to the
    log endpoint while no token is cached, and otherwise every event sent
    so far carries the one cached token. *)
Theorem outbox_events_carry_the_cached_token env cs :
  let lg := run_calls env cs initial in
  (auth_token_storage lg = None /\ outbox lg = [])
  \/ exists t, cached lg t /\ Forall (fun ev => ev_token ev = t) (outbox lg).
Proof.
  cbn zeta. change (outbox_inv (run_calls env cs initial)).
  assert (H : forall lg, outbox_inv lg -> outbox_inv (run_calls env cs lg)).
  { induction cs as [ | c cs IH]; intros lg Hinv; [exact Hinv | ].
    change (run_calls env (c :: cs) lg)
      with (run_calls env cs (run_call env c lg)).
    now apply IH, run_call_outbox_inv. }
  apply H. left. now split.
Qed.

Lemma run_call_denied env c lg :
  (forall i, auth_reply_denies (auth_net env i) = true) ->
  auth_token_storage lg = None ->
  auth_token_storage (run_call env c lg) = None
  /\ auth_posts (run_call env c lg) = S (auth_posts lg)
  /\ outbox (run_call env c lg) = outbox lg.
Proof.
  intros Hd Hn.
  assert (Hs : storage_truthy lg = false)
    by (unfold storage_truthy; now rewrite Hn).
  destruct c as [ | stack level package message]; cbn [run_call].
  - destruct (get_auth_token_denied env lg Hs (Hd _)) as (line & ->).
    cbn. now repeat split.
  - destruct (Log_denied env stack level package
                message lg Hs (Hd _)) as (lg' & -> & Hst & Hp & Hout & _).
    cbn. repeat split; congruence.
Qed.

(** X6: as long as the auth endpoint denies, every call into the module
    makes a new auth attempt: after any sequence of calls from the initial
    state there have been as many auth posts as calls, nothing is cached
    and nothing was sent to the log endpoint. *)
Theorem denied_auth_is_retried_on_every_call env cs :
  (forall i, auth_reply_denies (auth_net env i) = true) ->
  auth_posts (run_calls env cs initial) = length cs
  /\ auth_token_storage (run_calls env cs initial) = None
  /\ outbox (run_calls env cs initial) = [].
Proof.
  intros Hd.
  assert (H : forall lg, auth_token_storage lg = None ->
            auth_posts (run_calls env cs lg) = (auth_posts lg + length cs)%nat
            /\ auth_token_storage (run_calls env cs lg) = None
            /\ outbox (run_calls env cs lg) = outbox lg).
  { induction cs as [ | c cs IH]; intros lg Hn.
    - cbn. repeat split; [lia | exact Hn].
    - change (run_calls env (c :: cs) lg)
        with (run_calls env cs (run_call env c lg)).
      destruct (run_call_denied env c lg Hd Hn) as (Hn' & Hp' & Ho').
      destruct (IH _ Hn') as (Hp & Hst & Ho).
      rewrite Hp, Hp', Ho, Ho'. cbn [length]. repeat split; [lia | exact Hst]. }
  destruct (H initial eq_refl) as (Hp & Hst & Ho).
  now repeat split.
Qed.

(** X2: when no token is cached and authentication fails without
    faulting, [Log] returns, sends nothing to the log endpoint, caches
    nothing and has made one auth attempt; on the console it leaves the
    attempt line, one line for the failure, and last the LOG FAILED line
    with the level in upper case. *)
Theorem Log_without_token_sends_nothing
    env stack level package message lg :
  storage_truthy lg = false ->
  auth_reply_denies (auth_net env (auth_posts lg)) = true ->
  exists lg' line,
    Log env stack level package message lg = (Ok tt, lg')
    /\ auth_token_storage lg' = auth_token_storage lg
    /\ auth_posts lg' = S (auth_posts lg)
    /\ outbox lg' = outbox lg
    /\ console lg'
       = PrintLogFailed (upper level) package message
         :: line :: PrintAttempting :: console lg.
Proof.
  intros Hs Hd. unfold Log.
  destruct (get_auth_token_denied env lg Hs Hd) as (line & ->).
  cbn. eexists _, line. repeat split.
Qed.

(** X3: when no token is cached and the auth endpoint grants one, that
    first [Log] caches it and has made one auth attempt.  If the token can
    be encoded in the Authorization header, [Log] submits its event with
    that token and returns, and the console shows the attempt, the success
    and whatever the submission adds; if it cannot, [Log] raises
    [UnicodeEncodeError], nothing is submitted, and the token stays
    cached. *)
Theorem Log_first_token_is_cached_and_used
    env stack level package message lg t :
  storage_truthy lg = false ->
  auth_reply_grants (auth_net env (auth_posts lg)) = Some t ->
  exists lg',
    snd (Log env stack level package message lg) = lg'
    /\ cached lg' t
    /\ auth_posts lg' = S (auth_posts lg)
    /\ (header_encodable env t = true ->
        fst (Log env stack level package message lg) = Ok tt
        /\ outbox lg' = LogEvent t stack level package message :: outbox lg
        /\ console lg'
           = submission_console
               (log_net env (length (outbox lg))
                  (LogEvent t stack level package message))
               (PrintCached :: PrintAttempting :: console lg))
    /\ (header_encodable env t = false ->
        fst (Log env stack level package message lg)
        = Raise UnicodeEncodeError
        /\ outbox lg' = outbox lg
        /\ console lg' = PrintCached :: PrintAttempting :: console lg).
Proof.
  intros Hs Hg.
  destruct (get_auth_token_granted env lg t Hs Hg) as [Ht Hgt].
  rewrite (Log_with stack level package message env lg _ t Hgt Ht).
  eexists. split; [reflexivity | ].
  destruct (header_encodable env t); cbn;
    (split; [now split | ]); (split; [reflexivity | ]);
    split; intros He; try discriminate; now repeat split.
Qed.

(** X4: with a token cached that can be encoded in the Authorization
    header, [Log] submits exactly one event carrying that token and
    returns whatever the log endpoint answers: a status other than 200 or
    a transport error only adds a console line; the cache and the auth
    endpoint are left alone, and the state it leaves is determined.  With
    a cached token that cannot be encoded, [Log] raises
    [UnicodeEncodeError] and leaves the state as it was. *)
Theorem Log_with_token_submits_once
    env stack level package message lg t :
  cached lg t ->
  Log env stack level package message lg
  = if header_encodable env t then
      (Ok tt,
       {| auth_token_storage := auth_token_storage lg;
          auth_posts := auth_posts lg;
          outbox := LogEvent t stack level package message :: outbox lg;
          console := submission_console
                       (log_net env (length (outbox lg))
                          (LogEvent t stack level package message))
                       (console lg) |})
    else (Raise UnicodeEncodeError, lg).
Proof.
  intros Hc. unfold Log. rewrite (LoggerFacts.get_auth_token_cached _ _ _ Hc).
  destruct Hc as [_ Ht]. rewrite Ht. cbn. unfold submission_console.
  destruct (header_encodable env t); cbn; [ | reflexivity].
  destruct (log_net env (length (outbox lg)) _) as [r | e]; [ | reflexivity].
  now destruct (status_code r =? 200).
Qed.

(** *** The theorems above at concrete inputs *)

Section Witnesses.
Import Examples MoreExamples.

Lemma Log_without_token_sends_nothing_witness :
  exists lg' line,
    Log env_down "backend" "warn" "handler" "x" initial = (Ok tt, lg')
    /\ auth_token_storage lg' = None
    /\ auth_posts lg' = 1%nat
    /\ outbox lg' = []
    /\ console lg'
       = [PrintLogFailed "WARN" "handler" "x"; line; PrintAttempting].
Proof.
  apply (Log_without_token_sends_nothing env_down "backend" "warn" "handler"
           "x" initial); reflexivity.
Defined.

Lemma Log_first_token_is_cached_and_used_witness :
  exists lg',
    snd (Log snowman_env "backend" "info" "route" "x" initial) = lg'
    /\ cached lg' (JStr snowman)
    /\ auth_posts lg' = 1%nat
    /\ (header_encodable snowman_env (JStr snowman) = true ->
        fst (Log snowman_env "backend" "info" "route" "x" initial) = Ok tt
        /\ outbox lg'
           = [LogEvent (JStr snowman) "backend" "info" "route" "x"]
        /\ console lg'
           = submission_console
               (log_net snowman_env 0
                  (LogEvent (JStr snowman) "backend" "info" "route" "x"))
               [PrintCached; PrintAttempting])
    /\ (header_encodable snowman_env (JStr snowman) = false ->
        fst (Log snowman_env "backend" "info" "route" "x" initial)
        = Raise UnicodeEncodeError
        /\ outbox lg' = []
        /\ console lg' = [PrintCached; PrintAttempting]).
Proof.
  apply (Log_first_token_is_cached_and_used snowman_env "backend" "info"
           "route" "x" initial (JStr snowman)); reflexivity.
Defined.

Lemma Log_with_token_submits_once_witness :
  Log env_down "backend" "info" "route" "x" lg_token
  = (Ok tt,
     {| auth_token_storage := Some [("token", JStr "tok")];
        auth_posts := 1%nat;
        outbox := [LogEvent (JStr "tok") "backend" "info" "route" "x"];
        console := [PrintSendError ReadTimeout] |}).
Proof.
  apply (Log_with_token_submits_once env_down "backend" "info" "route" "x"
           lg_token (JStr "tok")).
  split; reflexivity.
Defined.

Lemma denied_auth_is_retried_on_every_call_witness :
  auth_posts (run_calls env_down some_calls initial) = 3%nat
  /\ auth_token_storage (run_calls env_down some_calls initial) = None
  /\ outbox (run_calls env_down some_calls initial) = [].
Proof.
  apply (denied_auth_is_retried_on_every_call env_down some_calls).
  intros i. reflexivity.
Defined.

(** A token outside latin-1 is cached by the first [Log], which raises,
    and every later [Log] raises on it as well. *)
Example snowman_token_stops_every_Log :
  fst (Log snowman_env "backend" "info" "route" "x" initial)
  = Raise UnicodeEncodeError
  /\ fst (Log snowman_env "backend" "info" "route" "y"
            (snd (Log snowman_env "backend" "info" "route" "x" initial)))
     = Raise UnicodeEncodeError.
Proof. split; reflexivity. Qed.

End Witnesses.

End LoggerMore.

(** ** Further properties of the handlers *)

Module MainMore.
Import Main Vocabulary MainFacts.
Import Logger(quiet).

Section Redirect.
Context (env : Env).

(** X8: from a quiet logging state, a live link is not used up by being
    followed: any number of accesses, each no later than the expiry, all
    answer 307 with the stored URL percent-quoted as [Location] and leave
    the store as it was. *)
Theorem live_link_can_be_followed_repeatedly code times : forall w e,
  quiet env (log_state w) ->
  url_db w !! code = Some e ->
  Forall (fun now => now <= expiry_utc e) times ->
  Forall (fun o => o = Ok {| redirect_status := 307;
                             location := Urllib.quote REDIRECT_SAFE
                                           (long_url e) |})
         (fst (redirects env code times w))
  /\ url_db (snd (redirects env code times w)) = url_db w.
Proof.
  induction times as [ | now times IH]; intros w e Hq Hsome Hall; cbn.
  - split; [constructor | reflexivity].
  - inversion Hall as [ | ? ? Hnow Hrest]; subst.
    destruct (redirect_runs env code now w Hq)
      as (w1 & -> & Hdb & _ & Hq1).
    unfold redirect_answer, redirect_store in *. rewrite Hsome in *.
    replace (now >? expiry_utc e) with false in * by lia.
    cbv iota in Hdb. rewrite <- Hdb in Hsome.
    destruct (IH w1 e Hq1 Hsome Hrest) as [Hos Hdb'].
    destruct (redirects env code times w1) as [os w2]. cbn in *.
    split; [now constructor | congruence].
Qed.

(** X9: the health check never changes the store, in any environment
    and whatever its outcome; from a quiet logging state it returns its
    fixed payload; and with a token cached that can be encoded in the
    Authorization header it sends exactly one event, on the route
    package. *)
Theorem health_check_is_static w :
  url_db (snd (health_check env w)) = url_db w
  /\ (quiet env (log_state w) ->
      fst (health_check env w) = Ok "URL Shortener service is running")
  /\ (forall t,
       Logger.cached (log_state w) t ->
       header_encodable env t = true ->
       fst (health_check env w) = Ok "URL Shortener service is running"
       /\ Logger.outbox (log_state (snd (health_check env w)))
          = LogEvent t "backend" "info" "route"
              "Health check endpoint was hit."
            :: Logger.outbox (log_state w)).
Proof.
  split; [apply health_check_kept | ]. split.
  - intros Hq. unfold health_check. log_step. reflexivity.
  - intros t Hc He. unfold health_check.
    rewrite bind_unfold. unfold Log.
    destruct (LoggerMore.Log_submits env "backend" "info"
                "route" "Health check endpoint was hit." (log_state w) t
                Hc He)
      as (lg' & -> & _ & _ & Hout & _).
    split; [reflexivity | exact Hout].
Qed.


(** The hexadecimal digits are letters and digits. *)
Lemma hex_digit_always_safe n :
  (n < 16)%nat -> Urllib.always_safe (Urllib.hex_digit n) = true.
Proof.
  intros Hn.
  do 16 (destruct n as [ | n]; [reflexivity | ]). lia.
Qed.

(** Once the percent sign is among the safe characters, what [quote]
    returns consists of kept bytes only. *)
Lemma quote_bytes_kept safe s :
  Urllib.kept safe "%" = true ->
  forallb (Urllib.kept safe) (list_ascii_of_string (Urllib.quote safe s))
  = true.
Proof.
  intros Hp. induction s as [ | c s IH]; [reflexivity | ].
  cbn [Urllib.quote].
  destruct (Urllib.kept safe c) eqn:Hc;
    cbn [list_ascii_of_string forallb].
  - now rewrite Hc, IH.
  - rewrite Hp, IH. unfold Urllib.kept.
    pose proof (nat_ascii_bounded c) as Hb.
    rewrite !hex_digit_always_safe; [reflexivity | | ].
    + apply Nat.mod_upper_bound. discriminate.
    + apply Nat.Div0.div_lt_upper_bound. exact Hb.
Qed.

Lemma kept_redirect_safe_ascii c :
  Urllib.kept REDIRECT_SAFE c = true -> (nat_of_ascii c < 128)%nat.
Proof.
  destruct c as [b0 b1 b2 b3 b4 b5 b6 [ | ]]; [ | intros _].
  - destruct b0, b1, b2, b3, b4, b5, b6; vm_compute; discriminate.
  - destruct b0, b1, b2, b3, b4, b5, b6; vm_compute; lia.
Qed.

(** X20: whatever the environment, a redirect that is answered is a 307
    for a stored entry that has not expired, and its [Location] is the
    stored URL percent-quoted: it consists of ASCII bytes only, each an
    unreserved character, a safe character or part of a [%XX] escape, so
    quoting it again changes nothing. *)
Theorem redirect_location_is_quoted_ascii code now w resp w' :
  redirect_to_long_url env code now w = (Ok resp, w') ->
  redirect_status resp = 307
  /\ (exists e, url_db w !! code = Some e /\ now <= expiry_utc e
        /\ location resp = Urllib.quote REDIRECT_SAFE (long_url e))
  /\ forallb (fun c => (nat_of_ascii c <? 128)%nat)
       (list_ascii_of_string (location resp)) = true
  /\ Urllib.quote REDIRECT_SAFE (location resp) = location resp
  /\ url_db w' = url_db w.
Proof.
  intros Hr.
  destruct (redirect_outcomes env code now w)
    as (w1 & [[Ha Hdb] | [(x & _ & Hx) _]]); [ | congruence].
  rewrite Hr in Ha. injection Ha as Ha <-.
  unfold redirect_answer, redirect_store in *.
  destruct (url_db w !! code) as [e | ]; [ | discriminate].
  destruct (now >? expiry_utc e) eqn:Hcmp; [discriminate | ].
  injection Ha as ->. cbn [redirect_response redirect_status location].
  pose proof (quote_bytes_kept REDIRECT_SAFE (long_url e) eq_refl) as Hk.
  split; [reflexivity | ].
  split; [exists e; repeat split; lia | ].
  split; [ | split; [now apply quote_kept | exact Hdb]].
  rewrite forallb_forall in *. intros c Hc.
  apply Nat.ltb_lt, kept_redirect_safe_ascii, Hk, Hc.
Qed.

End Redirect.

Section Generator.
Context (cfg : Config) (env : Env).

Lemma candidate_eq k w w' :
  draws w' = draws w -> candidate cfg env k w' = candidate cfg env k w.
Proof. intros H. unfold candidate. now rewrite H. Qed.

Lemma first_free_eq k w w' :
  url_db w' = url_db w -> draws w' = draws w ->
  first_free cfg env k w -> first_free cfg env k w'.
Proof.
  intros Hdb Hdr [Htaken Hfree]. split.
  - intros j Hj. rewrite (candidate_eq j w w' Hdr), Hdb. now apply Htaken.
  - now rewrite (candidate_eq k w w' Hdr), Hdb.
Qed.

Lemma generate_loop_first_free k : forall fuel w,
  quiet env (log_state w) ->
  (k < fuel)%nat ->
  first_free cfg env k w ->
  exists w1,
    generate_loop cfg env fuel w = (Ok (candidate cfg env k w), w1)
    /\ url_db w1 = url_db w
    /\ draws w1 = (draws w + S k * SHORTCODE_LENGTH cfg)%nat
    /\ quiet env (log_state w1).
Proof.
  induction k as [ | k IH]; intros fuel w Hq Hk [Htaken Hfree];
    (destruct fuel as [ | fuel]; [lia | ]); cbn [generate_loop];
    rewrite (bind_Ok (random_shortcode cfg env) _ w _ _ eq_refl);
    rewrite (bind_Ok get_db _ _ _ _ eq_refl); cbn [url_db].
  - unfold candidate in *. rewrite Nat.add_0_r in *. rewrite Hfree.
    log_step. eexists. split; [reflexivity | ].
    cbn in *. repeat split; try congruence. lia.
  - destruct (Htaken 0%nat ltac:(lia)) as [e0 He0].
    unfold candidate in He0. rewrite Nat.add_0_r in He0. rewrite He0.
    set (w' := {| url_db := url_db w; log_state := log_state w;
                  draws := (draws w + SHORTCODE_LENGTH cfg)%nat |}).
    assert (Hshift : forall j,
              candidate cfg env j w' = candidate cfg env (S j) w).
    { intros j. unfold candidate, w'. cbn [draws]. f_equal. lia. }
    destruct (IH fuel w' Hq ltac:(lia)) as (w1 & -> & Hdb & Hdr & Hq1).
    { split.
      - intros j Hj. rewrite Hshift. apply Htaken. lia.
      - now rewrite Hshift. }
    exists w1. rewrite Hshift. split; [reflexivity | ].
    split; [exact Hdb | ]. split; [ | exact Hq1].
    rewrite Hdr. unfold w'. cbn [draws]. lia.
Qed.

(** X10: the generator returns the first candidate that is not a key of
    the store: when the first [k] draws are taken and draw [k] is free, it
    returns exactly that one, having consumed [k + 1] codes' worth of
    entropy and left the store alone. *)
Theorem generator_returns_first_free_candidate k fuel w :
  quiet env (log_state w) ->
  (k < fuel)%nat ->
  first_free cfg env k w ->
  exists w1,
    generate_unique_shortcode cfg env fuel w
    = (Ok (candidate cfg env k w), w1)
    /\ url_db w1 = url_db w
    /\ draws w1 = (draws w + S k * SHORTCODE_LENGTH cfg)%nat
    /\ quiet env (log_state w1).
Proof.
  intros Hq Hk Hff. unfold generate_unique_shortcode.
  log_step.
  destruct (generate_loop_first_free k fuel w0 Hq0 Hk
              (first_free_eq k w w0 Hdb Hdr Hff))
    as (w1 & -> & Hdb1 & Hdr1 & Hq1).
  exists w1. rewrite (candidate_eq k w w0 Hdr).
  repeat split; congruence.
Qed.

Lemma generate_loop_all_taken fuel : forall w,
  (forall j, (j < fuel)%nat -> is_Some (url_db w !! candidate cfg env j w)) ->
  (forall code w1, generate_loop cfg env fuel w <> (Ok code, w1))
  /\ fst (generate_loop cfg env fuel w) = Diverge.
Proof.
  induction fuel as [ | fuel IH]; intros w Htaken; [now split | ].
  cbn [generate_loop].
  rewrite (bind_Ok (random_shortcode cfg env) _ w _ _ eq_refl).
  rewrite (bind_Ok get_db _ _ _ _ eq_refl). cbn [url_db].
  destruct (Htaken 0%nat ltac:(lia)) as [e0 He0].
  unfold candidate in He0. rewrite Nat.add_0_r in He0. rewrite He0.
  apply IH. intros j Hj.
  replace (candidate cfg env j _) with (candidate cfg env (S j) w).
  - apply Htaken. lia.
  - unfold candidate. cbn [draws]. f_equal. lia.
Qed.

(** X11: while every candidate drawn is a key of the store the generator
    keeps drawing: with all of its first [fuel] candidates taken it has
    returned nothing after [fuel] attempts (it never falls back to a taken
    code and raises nothing of its own), and the store is as before. *)
Theorem generator_never_settles_on_a_taken_code fuel w :
  (forall j, (j < fuel)%nat -> is_Some (url_db w !! candidate cfg env j w)) ->
  (forall code w1,
     generate_unique_shortcode cfg env fuel w <> (Ok code, w1))
  /\ (quiet env (log_state w) ->
      fst (generate_unique_shortcode cfg env fuel w) = Diverge)
  /\ url_db (snd (generate_unique_shortcode cfg env fuel w)) = url_db w.
Proof.
  intros Htaken. split; [ | split].
  - intros code w1 H. unfold generate_unique_shortcode in H.
    apply bind_Ok_inv in H as (u & w0 & HL & Hloop).
    apply Log_frame in HL as [Hdb Hdr].
    apply (proj1 (generate_loop_all_taken fuel w0
                    ltac:(intros j Hj; rewrite (candidate_eq j w w0 Hdr), Hdb;
                          now apply Htaken)) code w1 Hloop).
  - intros Hq. unfold generate_unique_shortcode. log_step.
    apply generate_loop_all_taken. intros j Hj.
    rewrite (candidate_eq j w w0 Hdr), Hdb. now apply Htaken.
  - apply generate_unique_shortcode_kept.
Qed.

End Generator.

Section Create.
Context (cfg : Config) (env : Env).

(** X13: a create whose expiry would lie beyond the last datetime stores
    nothing: in every environment it returns no response and leaves the
    store as it was, and from a quiet logging state and with a shortcode
    to settle on its outcome is [OverflowError], a 500 for the caller. *)
Theorem create_overflow_stores_nothing request_data now fuel w :
  Datetime.in_range
    (now + validity request_data * Datetime.US_PER_MINUTE) = false ->
  (forall resp w1,
     create_short_url cfg env request_data now fuel w <> (Ok resp, w1))
  /\ url_db (snd (create_short_url cfg env request_data now fuel w))
     = url_db w
  /\ (quiet env (log_state w) ->
      can_allocate cfg env request_data fuel w ->
      fst (create_short_url cfg env request_data now fuel w)
      = Raise OverflowError
      /\ http_status 201
           (fst (create_short_url cfg env request_data now fuel w))
         = Some 500).
Proof.
  intros Hexp. split; [ | split].
  - intros resp w1 Hc.
    apply create_short_url_sound in Hc as (code & _ & _ & _ & Hr & _).
    congruence.
  - destruct (create_step_allocated cfg env request_data now fuel w)
      as [H | (code & _ & _ & Hr & _)]; [exact H | congruence].
  - intros Hh Hcan. rewrite create_short_url_split.
    log_step.
    destruct (settle_shortcode_returns cfg env request_data fuel w0 Hq)
      as (code & wa & Ha & Hqa).
    { destruct Hcan as [(c & Hsc & Hne & Hfree) | (k & Hk & Hfree)].
      - left. exists c. repeat split; congruence.
      - right. exists k. split; [exact Hk | ]. unfold candidate in *.
        congruence. }
    rewrite (bind_Ok _ _ _ _ _ Ha).
    destruct (finish_create_runs cfg env request_data now code wa Hqa)
      as (w1 & -> & _).
    rewrite (expiry_of_overflow _ _ Hexp). now split.
Qed.

(** X12: from a quiet logging state and with a clock and an expiry that
    are datetimes, a custom shortcode that is free is honoured: the short
    link is the base URL, a slash and exactly the requested code, the
    entry is stored under it, the generator is not consulted (no entropy
    is consumed, whatever the fuel), and an access to that code at any
    time up to the expiry answers 307 with the URL of the request
    percent-quoted as [Location]. *)
Theorem create_honours_free_custom_code request_data c now fuel w :
  quiet env (log_state w) ->
  shortcode request_data = Some c ->
  c <> EmptyString ->
  url_db w !! c = None ->
  Datetime.in_range now = true ->
  Datetime.in_range
    (now + validity request_data * Datetime.US_PER_MINUTE) = true ->
  exists w1,
    create_short_url cfg env request_data now fuel w
    = (Ok {| shortlink := BASE_SHORT_URL cfg +:+ "/" +:+ c;
             expiry := Datetime.strftime_iso_z
                         (now + validity request_data
                                * Datetime.US_PER_MINUTE) |}, w1)
    /\ url_db w1
       = <[c := {| long_url := url request_data;
                   expiry_utc := now + validity request_data
                                       * Datetime.US_PER_MINUTE |}]> (url_db w)
    /\ draws w1 = draws w
    /\ forall now',
         now' <= now + validity request_data * Datetime.US_PER_MINUTE ->
         exists w2,
           redirect_to_long_url env c now' w1
           = (Ok {| redirect_status := 307;
                    location := Urllib.quote REDIRECT_SAFE
                                  (url request_data) |}, w2).
Proof.
  intros Hq Hsc Hne Hfree Hnow Hexp.
  destruct (create_custom_runs cfg env request_data c now fuel w Hq Hsc Hne
              Hfree Hnow Hexp) as (w1 & Hc & Hdb & Hdr & Hq1).
  exists w1. split; [exact Hc | ]. split; [exact Hdb | ].
  split; [exact Hdr | ]. intros now' Hle.
  destruct (redirect_runs env c now' w1 Hq1) as (w2 & Hr & _).
  exists w2. rewrite Hr. unfold redirect_answer.
  rewrite Hdb, lookup_insert_eq. cbn [expiry_utc long_url].
  now replace (now' >? _) with false by lia.
Qed.

End Create.

Section Service.
Context (cfg : Config) (env : Env).
Context (parse_http_url : string -> option string).

Lemma alnum_is_pattern l :
  forallb is_alnum l = true -> forallb pattern_char l = true.
Proof.
  induction l as [ | c l IH]; cbn; [reflexivity | ].
  intros [Hc Hl]%andb_prop. rewrite (IH Hl). unfold pattern_char.
  now rewrite Hc.
Qed.

(** A property of entries that every inserted entry has is an invariant
    of the store. *)
Lemma handle_entries (P : string -> entry -> Prop) r w :
  (forall k e, url_db w !! k = Some e -> P k e) ->
  (forall request_data now fuel code,
     r = PostShorturls request_data now fuel ->
     allocated cfg env request_data w code ->
     Datetime.in_range
       (now + validity request_data * Datetime.US_PER_MINUTE) = true ->
     P code {| long_url := url request_data;
               expiry_utc := now + validity request_data
                                   * Datetime.US_PER_MINUTE |}) ->
  forall k e, url_db (handle cfg env r w) !! k = Some e -> P k e.
Proof.
  intros Hold Hnew k e.
  destruct r as [request_data now fuel | code now | ]; cbn [handle].
  - destruct (create_step_allocated cfg env request_data now fuel w)
      as [-> | (code & _ & Hfrom & Hr & ->)]; [apply Hold | ].
    rewrite lookup_insert_Some. intros [[<- <-] | [_ Hk]].
    + now apply (Hnew request_data now fuel code eq_refl).
    + now apply Hold.
  - destruct (redirect_step env code now w) as [-> | (e' & _ & _ & ->)];
      [apply Hold | ].
    rewrite lookup_delete_Some. intros [_ Hk]. now apply Hold.
  - rewrite health_check_kept. apply Hold.
Qed.

Lemma handle_all_entries (P : string -> entry -> Prop) rs : forall w,
  (forall k e, url_db w !! k = Some e -> P k e) ->
  (forall request_data now fuel code w',
     In (PostShorturls request_data now fuel) rs ->
     allocated cfg env request_data w' code ->
     Datetime.in_range
       (now + validity request_data * Datetime.US_PER_MINUTE) = true ->
     P code {| long_url := url request_data;
               expiry_utc := now + validity request_data
                                   * Datetime.US_PER_MINUTE |}) ->
  forall k e, url_db (handle_all cfg env rs w) !! k = Some e -> P k e.
Proof.
  induction rs as [ | r rs IH]; intros w Hold Hnew; [exact Hold | ].
  change (handle_all cfg env (r :: rs) w)
    with (handle_all cfg env rs (handle cfg env r w)).
  apply IH.
  - apply handle_entries; [exact Hold | ].
    intros request_data now fuel code ->.
    apply (Hnew request_data now fuel code w). now left.
  - intros request_data now fuel code w' Hin.
    apply (Hnew request_data now fuel code w'). now right.
Qed.

(** X14: every key of the store is a shortcode the service can have
    produced.  Over any sequence of requests whose create bodies passed
    validation, each key consists of characters of [[a-zA-Z0-9_-]] only
    and has the length of a custom code (4 to 12) or the configured length
    of a generated one. *)
Theorem stored_keys_are_wellformed_shortcodes rs w :
  Forall request_ok rs ->
  (forall k, is_Some (url_db w !! k) -> key_ok cfg k) ->
  forall k, is_Some (url_db (handle_all cfg env rs w) !! k) -> key_ok cfg k.
Proof.
  intros Hrs Hold k [e Hk].
  apply (handle_all_entries (fun k _ => key_ok cfg k) rs w) with (e := e);
    [ | | exact Hk].
  - intros k' e' Hk'. apply Hold. now exists e'.
  - intros request_data now fuel code w' Hin Hfrom _.
    rewrite Forall_forall in Hrs.
    specialize (Hrs _ (proj2 (list_elem_of_In _ _) Hin)). cbn in Hrs.
    destruct Hfrom as [[Hsc _] | [[i ->] _]].
    + specialize (Hrs _ Hsc). unfold shortcode_field_ok in Hrs.
      apply andb_prop in Hrs as [[Hmin Hmax]%andb_prop Hpat].
      split; [exact Hpat | left].
      apply Nat.leb_le in Hmin, Hmax. lia.
    + split.
      * apply alnum_is_pattern, join_choices_alnum.
      * right. apply join_choices_length.
Qed.

(** X16: from a quiet logging state, an expired link leaves no trace.
    After a create that returned, the first access later than the expiry
    answers 410 and leaves the store exactly as it was before the create;
    every further access answers 404. *)
Theorem expired_link_leaves_no_trace
    raw request_data now fuel w resp w1 now' :
  quiet env (log_state w) ->
  validate cfg parse_http_url raw = Some request_data ->
  create_short_url cfg env request_data now fuel w = (Ok resp, w1) ->
  now' > now + validity request_data * Datetime.US_PER_MINUTE ->
  exists w2,
    redirect_to_long_url env (last_segment (shortlink resp)) now' w1
    = (Raise (HTTPException 410 "This Short URL has expired."), w2)
    /\ url_db w2 = url_db w
    /\ forall times,
         Forall (fun o => o = Raise (HTTPException 404 "Short URL not found."))
                (fst (redirects env (last_segment (shortlink resp)) times w2)).
Proof.
  intros Hq0 Hval Hc Hlate.
  assert (Hq : quiet env (log_state w1)).
  { pose proof (create_short_url_keeps cfg env (quiet env)
                  (LoggerFacts.Log_quiet env) request_data now fuel w Hq0)
      as H. now rewrite Hc in H. }
  apply validate_Some in Hval as (_ & _ & _ & _ & Hok).
  apply create_short_url_sound in Hc as (code & -> & Hnone & Hdb & _ & Hfrom).
  cbn [shortlink].
  rewrite (last_segment_link _ _
             (allocated_no_slash cfg env _ _ _ Hok Hfrom)).
  destruct (redirect_runs env code now' w1 Hq)
    as (w2 & Hr & Hdb2 & _ & Hq2).
  unfold redirect_answer, redirect_store in *.
  rewrite Hdb, lookup_insert_eq in *. cbn [expiry_utc] in *.
  replace (now' >? _) with true in * by lia.
  rewrite delete_insert_id in Hdb2 by exact Hnone.
  exists w2. split; [exact Hr | ]. split; [exact Hdb2 | ].
  intros times. apply redirects_absent; [exact Hq2 | congruence].
Qed.


(** X18: two creates never share a shortcode and the second never
    disturbs the first: when a create is followed by another, whatever the
    two requests ask for, the two short links carry different codes and the
    first code still maps to the first request's URL and expiry. *)
Theorem successive_creates_get_distinct_codes
    raw1 rd1 now1 fuel1 raw2 rd2 now2 fuel2 w resp1 w1 resp2 w2 :
  validate cfg parse_http_url raw1 = Some rd1 ->
  validate cfg parse_http_url raw2 = Some rd2 ->
  create_short_url cfg env rd1 now1 fuel1 w = (Ok resp1, w1) ->
  create_short_url cfg env rd2 now2 fuel2 w1 = (Ok resp2, w2) ->
  last_segment (shortlink resp1) <> last_segment (shortlink resp2)
  /\ url_db w2 !! last_segment (shortlink resp1)
     = Some {| long_url := url rd1;
               expiry_utc := now1 + validity rd1 * Datetime.US_PER_MINUTE |}.
Proof.
  intros Hv1 Hv2 Hc1 Hc2.
  apply validate_Some in Hv1 as (_ & _ & _ & _ & Hok1).
  apply validate_Some in Hv2 as (_ & _ & _ & _ & Hok2).
  apply create_short_url_sound in Hc1
    as (code1 & -> & Hnone1 & Hdb1 & _ & Hfrom1).
  apply create_short_url_sound in Hc2
    as (code2 & -> & Hnone2 & Hdb2 & _ & Hfrom2).
  cbn [shortlink].
  rewrite (last_segment_link _ _
             (allocated_no_slash cfg env _ _ _ Hok1 Hfrom1)).
  rewrite (last_segment_link _ _
             (allocated_no_slash cfg env _ _ _ Hok2 Hfrom2)).
  assert (Hne : code1 <> code2).
  { intros ->. rewrite Hdb1, lookup_insert_eq in Hnone2. discriminate. }
  split; [exact Hne | ].
  rewrite Hdb2, lookup_insert_ne by congruence.
  rewrite Hdb1. apply lookup_insert_eq.
Qed.

(** Holding a token and the count of auth posts are kept by every
    [Log] call, whatever its outcome. *)
Lemma Log_holds t n stack level package message lg :
  Logger.cached lg t /\ Logger.auth_posts lg = n ->
  Logger.cached (snd (Logger.Log env stack level package message lg)) t
  /\ Logger.auth_posts (snd (Logger.Log env stack level package message lg))
     = n.
Proof.
  intros [Hc Hn].
  destruct (LoggerFacts.Log_cached env stack level package message lg t Hc)
    as [Hst Hp].
  split; [ | congruence].
  destruct Hc as [Hc Ht]. split; [congruence | exact Ht].
Qed.

(** X19: once the service holds a token, no request makes it contact the
    auth endpoint again: over any sequence of requests, in any
    environment, the token stays cached and the number of auth posts stays
    what it was. *)
Theorem service_never_reauthenticates t rs : forall w,
  Logger.cached (log_state w) t ->
  Logger.cached (log_state (handle_all cfg env rs w)) t
  /\ Logger.auth_posts (log_state (handle_all cfg env rs w))
     = Logger.auth_posts (log_state w).
Proof.
  intros w Hc.
  apply (handle_all_keeps cfg env
           (fun lg => Logger.cached lg t
                      /\ Logger.auth_posts lg
                         = Logger.auth_posts (log_state w))).
  - intros stack level package message lg. apply Log_holds.
  - now split.
Qed.

End Service.

(** *** The theorems above at concrete inputs *)

Section Witnesses.
Import Examples MoreExamples.



Lemma live_link_can_be_followed_repeatedly_witness :
  Forall (fun o => o = Ok {| redirect_status := 307;
                             location := Urllib.quote REDIRECT_SAFE
                                           (long_url entry_abcd) |})
         (fst (redirects env_down "abcd"
                 [now0; now0 + 1; now0 + 60000000] w_abcd))
  /\ url_db (snd (redirects env_down "abcd"
                    [now0; now0 + 1; now0 + 60000000] w_abcd))
     = url_db w_abcd.
Proof.
  apply (live_link_can_be_followed_repeatedly env_down "abcd"
           [now0; now0 + 1; now0 + 60000000] w_abcd entry_abcd).
  - apply env_down_quiet. reflexivity.
  - reflexivity.
  - repeat constructor; cbn [expiry_utc entry_abcd]; lia.
Defined.

Lemma health_check_is_static_witness :
  fst (health_check array_env w_token)
  = Ok "URL Shortener service is running"
  /\ Logger.outbox (log_state (snd (health_check array_env w_token)))
     = LogEvent (JStr "tok") "backend" "info" "route"
         "Health check endpoint was hit."
       :: Logger.outbox (log_state w_token).
Proof.
  apply (proj2 (proj2 (health_check_is_static array_env w_token))
           (JStr "tok")).
  - now split.
  - reflexivity.
Defined.

Lemma redirect_location_is_quoted_ascii_witness :
  redirect_status (redirect_response "https://example.com/a|b") = 307
  /\ (exists e, url_db w_pipe !! "pipe" = Some e /\ now0 <= expiry_utc e
        /\ location (redirect_response "https://example.com/a|b")
           = Urllib.quote REDIRECT_SAFE (long_url e))
  /\ forallb (fun c => (nat_of_ascii c <? 128)%nat)
       (list_ascii_of_string
          (location (redirect_response "https://example.com/a|b"))) = true
  /\ Urllib.quote REDIRECT_SAFE
       (location (redirect_response "https://example.com/a|b"))
     = location (redirect_response "https://example.com/a|b")
  /\ url_db (snd (redirect_to_long_url env_down "pipe" now0 w_pipe))
     = url_db w_pipe.
Proof.
  apply (redirect_location_is_quoted_ascii env_down "pipe" now0 w_pipe
           (redirect_response "https://example.com/a|b")
           (snd (redirect_to_long_url env_down "pipe" now0 w_pipe))).
  vm_compute. reflexivity.
Defined.

Lemma generator_returns_first_free_candidate_witness :
  exists w1,
    generate_unique_shortcode cfg env_down 5 w_taken = (Ok "ghijkl", w1)
    /\ url_db w1 = url_db w_taken
    /\ draws w1 = 12%nat
    /\ quiet env_down (log_state w1).
Proof.
  apply (generator_returns_first_free_candidate cfg env_down 1 5 w_taken).
  - apply env_down_quiet. reflexivity.
  - lia.
  - split.
    + intros j Hj. assert (j = 0%nat) as -> by lia.
      exists entry_abcd. reflexivity.
    + reflexivity.
Defined.

Lemma generator_never_settles_on_a_taken_code_witness :
  (forall code w1,
     generate_unique_shortcode cfg env_down 1 w_taken <> (Ok code, w1))
  /\ (quiet env_down (log_state w_taken) ->
      fst (generate_unique_shortcode cfg env_down 1 w_taken) = Diverge)
  /\ url_db (snd (generate_unique_shortcode cfg env_down 1 w_taken))
     = url_db w_taken.
Proof.
  apply (generator_never_settles_on_a_taken_code cfg env_down 1 w_taken).
  intros j Hj. assert (j = 0%nat) as -> by lia.
  exists entry_abcd. reflexivity.
Defined.

Lemma create_honours_free_custom_code_witness :
  exists w1,
    create_short_url cfg env_down req_abcd now0 0 Main.initial
    = (Ok {| shortlink := BASE_SHORT_URL cfg +:+ "/" +:+ "abcd";
             expiry := Datetime.strftime_iso_z
                         (now0 + validity req_abcd
                                 * Datetime.US_PER_MINUTE) |}, w1)
    /\ url_db w1
       = <[ "abcd" := {| long_url := url req_abcd;
                         expiry_utc := now0 + validity req_abcd
                                              * Datetime.US_PER_MINUTE |} ]>
           (url_db Main.initial)
    /\ draws w1 = draws Main.initial
    /\ forall now',
         now' <= now0 + validity req_abcd * Datetime.US_PER_MINUTE ->
         exists w2,
           redirect_to_long_url env_down "abcd" now' w1
           = (Ok {| redirect_status := 307;
                    location := Urllib.quote REDIRECT_SAFE
                                  (url req_abcd) |}, w2).
Proof.
  apply (create_honours_free_custom_code cfg env_down req_abcd "abcd" now0 0
           Main.initial).
  - apply env_down_quiet. reflexivity.
  - reflexivity.
  - discriminate.
  - reflexivity.
  - reflexivity.
  - reflexivity.
Defined.

Lemma create_overflow_stores_nothing_witness :
  url_db (snd (create_short_url cfg env_down req_far now0 1 w_abcd))
  = url_db w_abcd
  /\ fst (create_short_url cfg env_down req_far now0 1 w_abcd)
     = Raise OverflowError.
Proof.
  destruct (create_overflow_stores_nothing cfg env_down req_far now0 1 w_abcd)
    as (_ & Hdb & Hout).
  - reflexivity.
  - split; [exact Hdb | ].
    apply Hout.
    + apply env_down_quiet. reflexivity.
    + right. exists 0%nat. split; [lia | reflexivity].
Defined.

Lemma some_requests_ok : Forall request_ok some_requests.
Proof.
  repeat constructor; intros s [= <-]; reflexivity.
Qed.

Lemma stored_keys_are_wellformed_shortcodes_witness :
  key_ok cfg "abcdef".
Proof.
  apply (stored_keys_are_wellformed_shortcodes cfg env_down some_requests
           Main.initial).
  - exact some_requests_ok.
  - intros k [e He]. discriminate He.
  - eexists. reflexivity.
Defined.

Lemma expired_link_leaves_no_trace_witness :
  exists w1 w2,
    create_short_url cfg env_down req_abcd now0 1 Main.initial
    = (Ok resp_abcd, w1)
    /\ redirect_to_long_url env_down "abcd" (now0 + 61000000) w1
       = (Raise (HTTPException 410 "This Short URL has expired."), w2)
    /\ url_db w2 = url_db Main.initial.
Proof.
  destruct (create_custom_runs cfg env_down req_abcd "abcd" now0 1
              Main.initial) as (w1 & Hc & _);
    [apply env_down_quiet; reflexivity | reflexivity | discriminate
    | reflexivity | reflexivity | reflexivity | ].
  destruct (expired_link_leaves_no_trace cfg env_down parse_any raw_abcd
              req_abcd now0 1 Main.initial _ w1 (now0 + 61000000)
              (env_down_quiet Logger.initial eq_refl) eq_refl Hc)
    as (w2 & Hr & Hdb & _).
  - unfold req_abcd, Datetime.US_PER_MINUTE. cbn [validity]. lia.
  - exists w1, w2. split; [exact Hc | ]. split; [exact Hr | exact Hdb].
Defined.


Lemma successive_creates_get_distinct_codes_witness :
  exists w1 w2,
    create_short_url cfg env_down req_abcd now0 0 Main.initial
    = (Ok resp_abcd, w1)
    /\ create_short_url cfg env_down req_wxyz now0 0 w1 = (Ok resp_wxyz, w2)
    /\ last_segment (shortlink resp_abcd) <> last_segment (shortlink resp_wxyz)
    /\ url_db w2 !! last_segment (shortlink resp_abcd) = Some entry_abcd.
Proof.
  destruct (create_custom_runs cfg env_down req_abcd "abcd" now0 0
              Main.initial) as (w1 & Hc1 & Hdb1 & _ & Hq1);
    [apply env_down_quiet; reflexivity | reflexivity | discriminate
    | reflexivity | reflexivity | reflexivity | ].
  destruct (create_custom_runs cfg env_down req_wxyz "wxyz" now0 0 w1)
    as (w2 & Hc2 & _);
    [exact Hq1 | reflexivity | discriminate
    | rewrite Hdb1; reflexivity | reflexivity | reflexivity | ].
  exists w1, w2. split; [exact Hc1 | ]. split; [exact Hc2 | ].
  exact (successive_creates_get_distinct_codes cfg env_down parse_any
           raw_abcd req_abcd now0 0 raw_wxyz req_wxyz now0 0 Main.initial
           _ w1 _ w2 eq_refl eq_refl Hc1 Hc2).
Defined.

Lemma service_never_reauthenticates_witness :
  Logger.cached
    (log_state (handle_all cfg array_env some_requests w_token)) (JStr "tok")
  /\ Logger.auth_posts
       (log_state (handle_all cfg array_env some_requests w_token)) = 1%nat.
Proof.
  apply (service_never_reauthenticates cfg array_env (JStr "tok")
           some_requests w_token).
  split; reflexivity.
Defined.

End Witnesses.

End MainMore.
